(** * FastFollow: the one-layer follow-up cache of [main.py]

    A shallow embedding of [FollowupProposer._parse] and of the three
    operations of [OneLayerFastFollow] ([ask], [peek_immediate],
    [rotate_next_layer]), with the language model as an oracle that may
    raise.

    Python values are modelled as follows:
    - [str] is a list of Unicode code points ([list N]);
    - [int] is [Z];
    - [List[str]] is [list pystr], [Dict[int, str]] is [gmap Z pystr],
      the local [set()] of [_parse] is [gset pystr];
    - an exception is the left injection of a sum. *)

From Stdlib Require Import ZArith NArith String Ascii Decimal DecimalPos DecimalN Lia.
From stdpp Require Import base option list list_numbers gmap.

(* stdpp's solvers clear hypotheses that are sometimes gone already. *)
#[local] Set Warnings "-clear-no-such-hyp".

Local Open Scope N_scope.

(** ** Python strings *)

Abbreviation pystr := (list N).

(** An ASCII literal of the source, as code points. *)
Definition lit (s : string) : pystr :=
  List.map N_of_ascii (list_ascii_of_string s).

Module PyStr.

(** [Py_UNICODE_ISSPACE]: the characters [str.strip()] removes and the
    regular expression class [\s] matches on a [str] pattern. *)
Definition is_space (c : N) : bool :=
  ((9 <=? c) && (c <=? 13)) || ((28 <=? c) && (c <=? 32))
  || (c =? 133) || (c =? 160) || (c =? 5760)
  || ((8192 <=? c) && (c <=? 8202))
  || (c =? 8232) || (c =? 8233) || (c =? 8239) || (c =? 8287)
  || (c =? 12288).

(** [Py_UNICODE_ISLINEBREAK]: the boundaries [str.splitlines()] cuts at. *)
Definition is_linebreak (c : N) : bool :=
  ((10 <=? c) && (c <=? 13)) || ((28 <=? c) && (c <=? 30))
  || (c =? 133) || (c =? 8232) || (c =? 8233).

Definition is_ascii (c : N) : bool := c <? 128.

(** [str.splitlines()]: a line ends at a line boundary, [\r\n] counts as
    one boundary, and a final boundary opens no empty last line.  [cur]
    holds the current line, reversed. *)
Fixpoint splitlines_from (cur : pystr) (s : pystr) : list pystr :=
  match s with
  | [] => match cur with [] => [] | _ => [rev cur] end
  | c :: s' =>
      if is_linebreak c then
        rev cur ::
          (if c =? 13 then
             match s' with
             | d :: s'' => if d =? 10 then splitlines_from [] s''
                           else splitlines_from [] s'
             | [] => splitlines_from [] s'
             end
           else splitlines_from [] s')
      else splitlines_from (c :: cur) s'
  end.

Definition splitlines (s : pystr) : list pystr := splitlines_from [] s.

(** [str.lstrip()], [str.rstrip()], [str.strip()] without argument. *)
Fixpoint lstrip (s : pystr) : pystr :=
  match s with
  | c :: s' => if is_space c then lstrip s' else s
  | [] => []
  end.

Fixpoint rstrip (s : pystr) : pystr :=
  match s with
  | [] => []
  | c :: s' =>
      match rstrip s' with
      | [] => if is_space c then [] else [c]
      | t => c :: t
      end
  end.

Definition strip (s : pystr) : pystr := lstrip (rstrip s).

(** [s.startswith(p)] *)
Fixpoint startswith (s p : pystr) : bool :=
  match p, s with
  | [], _ => true
  | a :: p', b :: s' => (a =? b) && startswith s' p'
  | _ :: _, [] => false
  end.

(** [sep.join(parts)] *)
Fixpoint join (sep : pystr) (parts : list pystr) : pystr :=
  match parts with
  | [] => []
  | [p] => p
  | p :: rest => p ++ sep ++ join sep rest
  end.

(** [str(n)] for an [int]: decimal digits, with a sign when negative. *)
Fixpoint uint_codes (d : Decimal.uint) : pystr :=
  match d with
  | Nil => []
  | D0 d => 48 :: uint_codes d
  | D1 d => 49 :: uint_codes d
  | D2 d => 50 :: uint_codes d
  | D3 d => 51 :: uint_codes d
  | D4 d => 52 :: uint_codes d
  | D5 d => 53 :: uint_codes d
  | D6 d => 54 :: uint_codes d
  | D7 d => 55 :: uint_codes d
  | D8 d => 56 :: uint_codes d
  | D9 d => 57 :: uint_codes d
  end.

Definition str_of_int (z : Z) : pystr :=
  match z with
  | Z0 => [48]
  | Zpos p => uint_codes (Pos.to_uint p)
  | Zneg p => 45 :: uint_codes (Pos.to_uint p)
  end.

(** [str.lower()] on a string of ASCII characters only. *)
Definition ascii_lower (c : N) : N :=
  if (65 <=? c) && (c <=? 90) then c + 32 else c.

(** Predicates on strings, for the statements below. *)
Definition spaces (s : pystr) : Prop := Forall (λ c, is_space c = true) s.
Definition one_line (s : pystr) : Prop := Forall (λ c, is_linebreak c = false) s.
Definition starts_clean (s : pystr) : Prop :=
  match s with c :: _ => is_space c = false | [] => True end.
Definition no_newline (s : pystr) : Prop := Forall (λ c, (c =? 10) = false) s.

End PyStr.

(** ** The interpreter's Unicode tables

    Two tables of the Python runtime decide [\d] and [str.lower()] beyond
    ASCII.  They are not part of the repository, so the model takes them as
    given: [uni_decimal c] says whether a non-ASCII [c] is a decimal digit,
    [uni_lower s] is the lower-cased form of a string [s] that holds some
    non-ASCII character. *)
Class UnicodeDB := {
  uni_decimal : N -> bool;
  uni_lower : pystr -> pystr
}.

Section Tables.
Context `{UnicodeDB}.

(** [\d] on a [str] pattern. *)
Definition is_digit (c : N) : bool :=
  if PyStr.is_ascii c then (48 <=? c) && (c <=? 57) else uni_decimal c.

(** [str.lower()] *)
Definition lower (s : pystr) : pystr :=
  if forallb PyStr.is_ascii s then List.map PyStr.ascii_lower s
  else uni_lower s.

End Tables.

(** ** A backtracking matcher for the constructs of the line pattern *)

Module Regex.

Inductive re : Type :=
| Bol                         (* ^ *)
| Eol                         (* $ *)
| Chr (p : N -> bool)         (* one character of a class *)
| Star (p : N -> bool)        (* greedy repetition of a class, zero or more *)
| Seq (r1 r2 : re)
| Alt (r1 r2 : re)            (* r1|r2, r1 tried first *)
| Opt (r : re)                (* (?:r)?, greedy *)
| Group (r : re).             (* the capturing group, number 1 *)

(** p+ *)
Definition Plus (p : N -> bool) : re := Seq (Chr p) (Star p).

(** The matcher's position: the text consumed so far (reversed), the
    text that remains, and what group 1 holds. *)
Record pos := Pos { seen_rev : pystr; rest : pystr; group1 : option pystr }.

(** [Star p] as the engine runs it: the longest run first, then one
    character less at each failure of the continuation. *)
Fixpoint star {R} (p : N -> bool) (g : option pystr)
    (k : pos -> option R) (acc s : pystr) : option R :=
  match s with
  | c :: s' =>
      if p c then
        match star p g k (c :: acc) s' with
        | Some r => Some r
        | None => k (Pos acc s g)
        end
      else k (Pos acc s g)
  | [] => k (Pos acc [] g)
  end.

Fixpoint run {R} (r : re) (st : pos) (k : pos -> option R) : option R :=
  match r with
  | Bol => match seen_rev st with [] => k st | _ => None end
  | Eol =>
      match rest st with
      | [] => k st
      | [c] => if c =? 10 then k st else None
      | _ => None
      end
  | Chr p =>
      match rest st with
      | c :: s' => if p c then k (Pos (c :: seen_rev st) s' (group1 st)) else None
      | [] => None
      end
  | Star p => star p (group1 st) k (seen_rev st) (rest st)
  | Seq r1 r2 => run r1 st (fun st' => run r2 st' k)
  | Alt r1 r2 =>
      match run r1 st k with
      | Some x => Some x
      | None => run r2 st k
      end
  | Opt r1 =>
      match run r1 st k with
      | Some x => Some x
      | None => k st
      end
  | Group r1 =>
      run r1 st (fun st' =>
        let n := (length (seen_rev st') - length (seen_rev st))%nat in
        k (Pos (seen_rev st') (rest st') (Some (rev (take n (seen_rev st'))))))
  end.

(** [re.match(r, s)]: anchored at the start of [s]; the result is the
    content of group 1 ([None] inside when the group took no part). *)
Definition accept (st : pos) : option (option pystr) := Some (group1 st).

Definition re_match (r : re) (s : pystr) : option (option pystr) :=
  run r (Pos [] s None) accept.

End Regex.

(** ** [FollowupProposer._parse] *)

Section Parser.
Context `{UnicodeDB}.
Import Regex.

Definition is_dot (c : N) : bool := c =? 46.
(** [[-•]]: the hyphen and U+2022. *)
Definition is_bullet (c : N) : bool := (c =? 45) || (c =? 8226).
(** [.] without DOTALL: anything but a newline. *)
Definition any_char (c : N) : bool := negb (c =? 10).
Definition non_space (c : N) : bool := negb (PyStr.is_space c).

(** The pattern of [_parse]: [^], [\s*], an optional [\d+\.\s*] or
    [[-•]\s*], the group [.*\S], then [\s*] and [$]. *)
Definition line_re : re :=
  Seq Bol
 (Seq (Star PyStr.is_space)
 (Seq (Opt (Alt (Seq (Plus is_digit) (Seq (Chr is_dot) (Star PyStr.is_space)))
                (Seq (Chr is_bullet) (Star PyStr.is_space))))
 (Seq (Group (Seq (Star any_char) (Chr non_space)))
 (Seq (Star PyStr.is_space)
      Eol)))).

(** [("follow-ups", "followups", "questions:")] *)
Definition header_prefixes : list pystr :=
  [lit "follow-ups"; lit "followups"; lit "questions:"].

(** [t.lower().startswith((...))] *)
Definition is_header (t : pystr) : bool :=
  existsb (PyStr.startswith (lower t)) header_prefixes.

(** What one iteration of the loop does with its line, before the
    duplicate test: [None] stands for [continue]. *)
Definition line_item (raw : pystr) : option pystr :=
  match re_match line_re raw with
  | None => None                                  (* if not m: continue *)
  | Some g =>
      let t := PyStr.strip (default [] g) in      (* m.group(1).strip() *)
      match t with
      | [] => None                                (* if not t: continue *)
      | _ => if is_header t then None else Some t
      end
  end.

(** The [for raw in text.splitlines()] loop, with its [break]. *)
Fixpoint parse_loop (k : Z) (lines : list pystr)
    (items : list pystr) (seen : gset pystr) : list pystr :=
  match lines with
  | [] => items
  | raw :: more =>
      match line_item raw with
      | None => parse_loop k more items seen
      | Some t =>
          let '(items', seen') :=
            if decide (t ∈ seen) then (items, seen)
            else (items ++ [t], {[t]} ∪ seen) in
          if (k <=? Z.of_nat (length items'))%Z then items'
          else parse_loop k more items' seen'
      end
  end.

Definition _parse (text : pystr) (k : Z) : list pystr :=
  parse_loop k (PyStr.splitlines text) [] ∅.

End Parser.

(** ** The language model

    The three [dspy.Predict] modules are calls to a collaborator that
    answers with text or raises.  [W] is whatever state the collaborator
    has; a call returns its answer ([None] when it raises) and the next
    state, so two calls with the same arguments may differ. *)

Inductive exn : Type :=
| IndexError            (* list index out of range *)
| GenerationFailure.    (* raised by the language model *)

Abbreviation result A := (exn + A)%type.

Record TextGenerator (W : Type) := {
  (* MainAnswerer.forward: self.p(question=question).answer *)
  gen_answer : pystr -> W -> option pystr * W;
  (* FollowupProposer.p(context=context).followups; the field may be None,
     the inner option *)
  gen_followups : pystr -> W -> option (option pystr) * W;
  (* FollowupAnswerer.forward: self.p(base_question=..., followup_question=...).answer *)
  gen_followup_answer : pystr -> pystr -> W -> option pystr * W
}.
Arguments gen_answer {W}.
Arguments gen_followups {W}.
Arguments gen_followup_answer {W}.

(** The calls made to the model, as the flow issues them. *)
Inductive call : Type :=
| CallMain (question : pystr)
| CallPropose (context : pystr)
| CallFollowup (base_q fu_q : pystr).

(** ** [OneLayerFastFollow] *)

(** The fields the operations read and write. *)
Record Flow := {
  k_followups : Z;                (* self.k *)
  base : option pystr;            (* self.base *)
  menu : list pystr;              (* self.menu *)
  answers : gmap Z pystr          (* self.answers *)
}.

(** [OneLayerFastFollow(k_followups)] *)
Definition new_flow (k : Z) : Flow :=
  {| k_followups := k; base := None; menu := []; answers := ∅ |}.

(** The object, the collaborator's state, and the calls made so far. *)
Record Machine (W : Type) := {
  flow : Flow;
  world : W;
  calls : list call
}.
Arguments flow {W}.
Arguments world {W}.
Arguments calls {W}.
Arguments Build_Machine {W}.

(** A method body: it runs on the machine, returns or raises, and leaves
    the machine as its assignments made it, also when it raises. *)
Definition M (W A : Type) : Type := Machine W -> result A * Machine W.

Section Monad.
Context {W : Type}.

Definition ret {A} (a : A) : M W A := fun m => (inr a, m).
Definition raise {A} (e : exn) : M W A := fun m => (inl e, m).
Definition bind {A B} (c : M W A) (f : A -> M W B) : M W B :=
  fun m => match c m with
           | (inr a, m') => f a m'
           | (inl e, m') => (inl e, m')
           end.

Definition get_flow : M W Flow := fun m => (inr (flow m), m).
Definition set_flow (f : Flow -> Flow) : M W unit :=
  fun m => (inr tt, Build_Machine (f (flow m)) (world m) (calls m)).

(** One call to the model: logged, then answered by the collaborator, or
    failed. *)
Definition invoke {A} (c : call) (g : W -> option A * W) : M W A :=
  fun m => let '(r, w') := g (world m) in
           (match r with Some a => inr a | None => inl GenerationFailure end,
            Build_Machine (flow m) w' (calls m ++ [c])).
End Monad.

Notation "x <- c1 ;; c2" := (bind c1 (fun x => c2))
  (at level 100, c1 at next level, right associativity).
Notation "c1 ;;; c2" := (bind c1 (fun _ => c2))
  (at level 100, right associativity).

Definition set_base (b : option pystr) (f : Flow) : Flow :=
  {| k_followups := k_followups f; base := b; menu := menu f; answers := answers f |}.
Definition set_menu (l : list pystr) (f : Flow) : Flow :=
  {| k_followups := k_followups f; base := base f; menu := l; answers := answers f |}.
Definition set_answers (a : gmap Z pystr) (f : Flow) : Flow :=
  {| k_followups := k_followups f; base := base f; menu := menu f; answers := a |}.

(** [l[i]] on a Python list: a negative index counts from the end. *)
Definition py_index {A} (l : list A) (i : Z) : option A :=
  if (0 <=? i)%Z then l !! Z.to_nat i
  else if (- Z.of_nat (length l) <=? i)%Z then l !! Z.to_nat (Z.of_nat (length l) + i)
  else None.

(** [f"User question: {question}\nAnswer: {main_answer}"] *)
Definition ask_context (question main_answer : pystr) : pystr :=
  lit "User question: " ++ question ++ [10] ++ lit "Answer: " ++ main_answer.

(** [f"Base: {selected_fu}\nAnswer: {immediate}"] *)
Definition rotate_context (selected_fu immediate : pystr) : pystr :=
  lit "Base: " ++ selected_fu ++ [10] ++ lit "Answer: " ++ immediate.

Section Flow.
Context {W : Type} (tg : TextGenerator W) `{UnicodeDB}.

Definition main_answerer (question : pystr) : M W pystr :=
  invoke (CallMain question) (gen_answer tg question).

(** [FollowupProposer.forward] *)
Definition propose (context : pystr) (k : Z) : M W (list pystr) :=
  raw <- invoke (CallPropose context) (gen_followups tg context) ;;
  ret (_parse (default [] raw) k).                 (* ... or "" *)

Definition answer_fu (base_q fu_q : pystr) : M W pystr :=
  invoke (CallFollowup base_q fu_q) (gen_followup_answer tg base_q fu_q).

(** [f"{i+1}. {q}" for i, q in enumerate(self.menu)], [i] being [i+1] here *)
Fixpoint menu_lines (i : Z) (qs : list pystr) : list pystr :=
  match qs with
  | [] => []
  | q :: qs' => (PyStr.str_of_int i ++ lit ". " ++ q) :: menu_lines (i + 1) qs'
  end.

(** [_menu_text], on the menu it reads *)
Definition menu_text_of (title : pystr) (qs : list pystr) : pystr :=
  match qs with
  | [] => []
  | _ => [10; 10] ++ title ++ lit ":" ++ [10] ++ PyStr.join [10] (menu_lines 1 qs)
  end.

Definition _menu_text (title : pystr) : M W pystr :=
  f <- get_flow ;; ret (menu_text_of title (menu f)).

(** [for idx, fu in enumerate(self.menu, start=1):
       self.answers[idx] = self.answer_fu(base_q, fu)] *)
Fixpoint fill_answers (base_q : pystr) (idx : Z) (fus : list pystr) : M W unit :=
  match fus with
  | [] => ret tt
  | fu :: more =>
      a <- answer_fu base_q fu ;;
      set_flow (fun f => set_answers (<[idx := a]> (answers f)) f) ;;;
      fill_answers base_q (idx + 1) more
  end.

Definition ask (question : pystr) : M W (pystr * list pystr) :=
  set_flow (set_base (Some question)) ;;;
  main_answer <- main_answerer question ;;
  let ctx := ask_context question main_answer in
  f <- get_flow ;;
  new_menu <- propose ctx (k_followups f) ;;
  set_flow (set_menu new_menu) ;;;
  set_flow (set_answers ∅) ;;;
  f <- get_flow ;;
  fill_answers question 1 (menu f) ;;;
  text <- _menu_text (lit "Follow-ups") ;;
  f <- get_flow ;;
  ret (main_answer ++ text, menu f).

Definition out_of_range (n : nat) : pystr :=
  lit "Please choose a number between 1 and " ++ PyStr.str_of_int (Z.of_nat n) ++ lit ".".

Definition no_cached_answer : pystr := lit "Sorry, no cached answer found.".

Definition peek_immediate (choice_idx : Z) : M W pystr :=
  f <- get_flow ;;
  if negb ((1 <=? choice_idx)%Z && (choice_idx <=? Z.of_nat (length (menu f)))%Z)
  then ret (out_of_range (length (menu f)))
  else ret (default no_cached_answer (answers f !! choice_idx)).

Definition rotate_next_layer (choice_idx : Z) : M W (list pystr) :=
  f <- get_flow ;;
  match py_index (menu f) (choice_idx - 1) with
  | None => raise IndexError
  | Some selected_fu =>
      let immediate := default [] (answers f !! choice_idx) in
      set_flow (set_base (Some selected_fu)) ;;;
      let ctx := rotate_context selected_fu immediate in
      f <- get_flow ;;
      next_menu <- propose ctx (k_followups f) ;;
      set_flow (set_menu next_menu) ;;;
      set_flow (set_answers ∅) ;;;
      f <- get_flow ;;
      fill_answers selected_fu 1 (menu f) ;;;
      f <- get_flow ;;
      ret (menu f)
  end.

(** What [peek_immediate] returns, as a function of the object. *)
Definition peek_result (f : Flow) (idx : Z) : pystr :=
  if negb ((1 <=? idx)%Z && (idx <=? Z.of_nat (length (menu f)))%Z)
  then out_of_range (length (menu f))
  else default no_cached_answer (answers f !! idx).

(** The machine once the proposal is parsed and the cache cleared. *)
Definition fresh_layer (m : Machine W) (new_base : pystr) (new_menu : list pystr)
    (w : W) (c : call) : Machine W :=
  Build_Machine
    (set_answers ∅ (set_menu new_menu (set_base (Some new_base) (flow m))))
    w (calls m ++ [c]).

(** The machines reached by a successful [ask] followed by successful
    [rotate_next_layer] calls, with [peek_immediate] calls in between. *)
Inductive layered : Machine W → Prop :=
| layered_ask m question r m' :
    ask question m = (inr r, m') → layered m'
| layered_rotate m idx r m' :
    layered m → rotate_next_layer idx m = (inr r, m') → layered m'
| layered_peek m idx r m' :
    layered m → peek_immediate idx m = (r, m') → layered m'.

End Flow.

(** ** A scripted collaborator

    Its state is the list of outcomes still to be given, one per call,
    whatever the call; once the script is used up every call raises. *)
Definition scripted_next {A} (f : pystr -> A) (w : list (option pystr))
    : option A * list (option pystr) :=
  match w with
  | Some s :: w' => (Some (f s), w')
  | None :: w' => (None, w')
  | [] => (None, [])
  end.

Definition scripted : TextGenerator (list (option pystr)) := {|
  gen_answer := fun _ => scripted_next id;
  gen_followups := fun _ => scripted_next Some;
  gen_followup_answer := fun _ _ => scripted_next id
|}.

(** The tables cut down to ASCII: no other decimal digit, no other case. *)
Definition ascii_tables : UnicodeDB :=
  {| uni_decimal := fun _ => false; uni_lower := fun s => s |}.

Definition boot (k : Z) (script : list (option pystr)) : Machine (list (option pystr)) :=
  Build_Machine (new_flow k) script [].

(** The first scenario: a question about TCP whose proposal names UDP
    twice; then a proposal of two follow-ups whose first answer comes and
    whose second answer fails. *)
Definition tcp_question : pystr := lit "What is TCP?".
Definition udp_question : pystr := lit "What is UDP?".
Definition handshake_question : pystr := lit "How does handshake work?".

Definition tcp_proposal : pystr :=
  lit "1. What is UDP?" ++ [10] ++ lit "2. What is UDP?" ++ [10]
  ++ lit "3. How does handshake work?".

Definition tcp_script : list (option pystr) :=
  [ Some (lit "TCP is a reliable transport protocol.");
    Some tcp_proposal;
    Some (lit "UDP is a datagram protocol.");
    Some (lit "SYN, SYN-ACK, ACK.");
    Some (lit "Why three steps?" ++ [10] ++ lit "What is a SYN flood?");
    Some (lit "Both sides confirm.");
    None ].

(** The machine after [ask("What is TCP?")] on that script. *)
Definition tcp_asked : Machine (list (option pystr)) :=
  snd (ask (H := ascii_tables) scripted tcp_question (boot 4 tcp_script)).

(** What [ask] returns to show in the first scenario. *)
Definition tcp_reply : pystr :=
  lit "TCP is a reliable transport protocol." ++ [10; 10]
  ++ lit "Follow-ups:" ++ [10] ++ lit "1. What is UDP?" ++ [10]
  ++ lit "2. How does handshake work?".

(** A machine whose proposal is empty. *)
Definition silent_script : list (option pystr) :=
  [ Some (lit "No idea."); Some [] ].

(** A machine with a menu of three entries. *)
Definition three_script : list (option pystr) :=
  [ Some (lit "Yes.");
    Some (lit "- A?" ++ [10] ++ lit "- B?" ++ [10] ++ lit "- C?");
    Some (lit "a"); Some (lit "b"); Some (lit "c") ].

Definition three_asked : Machine (list (option pystr)) :=
  snd (ask (H := ascii_tables) scripted (lit "Why?") (boot 4 three_script)).

(** ** The Gradio handlers

    [_buttons_update], [submit_or_choose] and [choose_btn] work on the one
    global [flow], created with [k_followups = MAX_BTNS].  A handler is a
    generator: it is modelled by the frames it yields, in order, the
    exception that ends it if one does, and the machine it leaves. *)

Definition MAX_BTNS : nat := 4.

(** What a handler sends to one button. *)
Inductive update : Type :=
| NoChange                                    (* gr.update() *)
| Update (value : pystr) (visible : bool).    (* gr.update(value=..., visible=...) *)

(** [for i in range(MAX_BTNS)]: the entry [menu[i]] shown when
    [i < len(menu)], an empty hidden button otherwise. *)
Definition _buttons_update (menu : list pystr) : list update :=
  List.map (λ i, match menu !! i with
                 | Some q => Update q true
                 | None => Update [] false
                 end)
           (seq 0 MAX_BTNS).

(** [[gr.update() for _ in range(MAX_BTNS)]] *)
Definition no_updates : list update := replicate MAX_BTNS NoChange.

(** The labels of the buttons an update list shows. *)
Definition visible_labels (us : list update) : list pystr :=
  omap (λ u, match u with Update v true => Some v | _ => None end) us.

(** The chat transcript: pairs of what the user sent and the reply. *)
Abbreviation history := (list (pystr * pystr)).

(** One [yield]: the transcript and the four button updates. *)
Abbreviation frame := (history * list update)%type.

Inductive ui_exn : Type :=
| FlowError (e : exn)     (* raised inside the flow *)
| ValueError.             (* int() on a text it cannot read *)

Record played (W : Type) := {
  frames : list frame;          (* what was yielded, in order *)
  raised : option ui_exn;       (* the exception that ended the handler *)
  after : Machine W
}.
Arguments frames {W}.
Arguments raised {W}.
Arguments after {W}.
Arguments Build_played {W}.

(** Two more facts of the interpreter that the handlers depend on:
    [uni_isdigit c] says whether a non-ASCII [c] counts for
    [str.isdigit()], and [uni_int s] is [int(s)] ([None] for ValueError)
    on a text that has a non-ASCII digit or more digits than the
    interpreter's limit on conversions allows (a limit that is never
    below 640). *)
Class DigitDB := {
  uni_isdigit : N -> bool;
  uni_int : pystr -> option Z
}.

Definition is_ascii_digit (c : N) : bool := (48 <=? c) && (c <=? 57).

(** One more decimal digit in front of [d], from its character. *)
Definition digit_before (c : N) (d : Decimal.uint) : option Decimal.uint :=
  match c with
  | 48 => Some (D0 d) | 49 => Some (D1 d) | 50 => Some (D2 d)
  | 51 => Some (D3 d) | 52 => Some (D4 d) | 53 => Some (D5 d)
  | 54 => Some (D6 d) | 55 => Some (D7 d) | 56 => Some (D8 d)
  | 57 => Some (D9 d)
  | _ => None
  end.

(** The decimal number a text of ASCII digits writes. *)
Fixpoint uint_of_codes (s : pystr) : option Decimal.uint :=
  match s with
  | [] => Some Nil
  | c :: s' =>
      match uint_of_codes s' with
      | Some d => digit_before c d
      | None => None
      end
  end.

Section Handlers.
Context {W : Type} (tg : TextGenerator W) `{UnicodeDB} `{DigitDB}.

(** [s.isdigit()]: some character, and digits only. *)
Definition isdigit (s : pystr) : bool :=
  match s with
  | [] => false
  | _ => forallb (λ c, if PyStr.is_ascii c then is_ascii_digit c
                       else uni_isdigit c) s
  end.

(** [int(s)], for the texts [isdigit] accepts. *)
Definition py_int (s : pystr) : option Z :=
  match s with
  | [] => None
  | _ =>
      match uint_of_codes s with
      | Some d => if (length s <=? 640)%nat then Some (Z.of_N (N.of_uint d))
                  else uni_int s
      | None => uni_int s
      end
  end.

Definition no_followups : pystr :=
  lit "No follow-ups available. Ask a new question.".

Definition submit_or_choose (user_text : option pystr) (chat_history : history)
    (m : Machine W) : played W :=
  let text := PyStr.strip (default [] user_text) in    (* (user_text or "").strip() *)
  if isdigit text then
    match menu (flow m) with
    | [] =>                                            (* if not flow.menu *)
        Build_played [(chat_history ++ [(text, no_followups)], no_updates)] None m
    | _ =>
        match py_int text with                         (* idx = int(text) *)
        | None => Build_played [] (Some ValueError) m
        | Some idx =>
            (* 1) immediate cached answer *)
            match peek_immediate idx m with
            | (inl e, m1) => Build_played [] (Some (FlowError e)) m1
            | (inr immediate, m1) =>
                let chat_history := chat_history ++ [(text, immediate)] in
                let first := (chat_history, no_updates) in
                (* 2) rotate to next layer *)
                match rotate_next_layer tg idx m1 with
                | (inl e, m2) => Build_played [first] (Some (FlowError e)) m2
                | (inr next_menu, m2) =>
                    Build_played [first; (chat_history, _buttons_update next_menu)]
                      None m2
                end
            end
        end
    end
  else
    match text with
    | [] => Build_played [(chat_history, no_updates)] None m   (* if not text *)
    | _ =>
        match ask tg text m with
        | (inl e, m1) => Build_played [] (Some (FlowError e)) m1
        | (inr (visible, menu), m1) =>
            Build_played [(chat_history ++ [(text, visible)], _buttons_update menu)]
              None m1
        end
    end.

Definition choose_btn (idx : Z) (chat_history : history) (m : Machine W) : played W :=
  (* 1) immediate *)
  match peek_immediate idx m with
  | (inl e, m1) => Build_played [] (Some (FlowError e)) m1
  | (inr immediate, m1) =>
      let chat_history := chat_history ++ [(PyStr.str_of_int idx, immediate)] in
      let first := (chat_history, no_updates) in
      (* 2) next layer *)
      match rotate_next_layer tg idx m1 with
      | (inl e, m2) => Build_played [first] (Some (FlowError e)) m2
      | (inr next_menu, m2) =>
          Build_played [first; (chat_history, _buttons_update next_menu)] None m2
      end
  end.

End Handlers.

(** What a frame of a handler called with [chat_history] looks like. *)
Definition well_formed_frame (chat_history : history) (f : frame) : Prop :=
  length (snd f) = MAX_BTNS ∧
  ∃ added, fst f = chat_history ++ added ∧ (length added ≤ 1)%nat.

(** No digit and no number beyond ASCII. *)
Definition ascii_digits : DigitDB :=
  {| uni_isdigit := fun _ => false; uni_int := fun _ => None |}.

(** ** Reference descriptions

    What the loop of [_parse] and its pattern compute, written without the
    matcher and without the loop.  The theorems below relate them to the
    embedding above. *)

Section Reference.
Context `{UnicodeDB}.

(** [s] without its longest prefix in the class [p]. *)
Fixpoint drop_run (p : N -> bool) (s : pystr) : pystr :=
  match s with
  | c :: s' => if p c then drop_run p s' else s
  | [] => []
  end.

(** What follows a marker "digits, dot, spaces" at the start of [s];
    empty when [s] has no such marker or nothing follows it. *)
Definition numbered_rest (s : pystr) : pystr :=
  match s with
  | d :: s' =>
      if is_digit d then
        match drop_run is_digit s' with
        | c :: r => if is_dot c then PyStr.lstrip r else []
        | [] => []
        end
      else []
  | [] => []
  end.

(** The same for a marker "bullet, spaces". *)
Definition bulleted_rest (s : pystr) : pystr :=
  match s with
  | c :: r => if is_bullet c then PyStr.lstrip r else []
  | [] => []
  end.

(** The text group 1 holds for a line body [s] (the line without its
    leading spaces): what follows the numbered marker if anything does,
    else what follows the bullet if anything does, else [s] itself, in
    each case without trailing spaces.  Empty when the body is empty. *)
Definition body_text (s : pystr) : pystr :=
  match PyStr.rstrip (numbered_rest s) with
  | [] => match PyStr.rstrip (bulleted_rest s) with
          | [] => PyStr.rstrip s
          | t => t
          end
  | t => t
  end.

Definition line_text (raw : pystr) : option pystr :=
  match body_text (PyStr.lstrip raw) with
  | [] => None
  | t => if is_header t then None else Some t
  end.

(** The first occurrence of each element, later ones dropped. *)
Fixpoint keep_first (l : list pystr) : list pystr :=
  match l with
  | [] => []
  | x :: l' => x :: filter (λ y, y ≠ x) (keep_first l')
  end.

(** What every item of a parsed menu satisfies. *)
Definition clean (t : pystr) : Prop :=
  t ≠ [] ∧ PyStr.one_line t ∧ PyStr.starts_clean t ∧ PyStr.rstrip t = t ∧ is_header t = false.

(** The characters of a rendered index. *)
Definition decimal_char (c : N) : Prop :=
  is_digit c = true ∧ PyStr.is_space c = false ∧ PyStr.is_linebreak c = false.

End Reference.

(** What the model replies to the follow-up questions [fus], asked in
    this order with base question [base_q] from the state [w], up to its
    first failure: the replies received, whether a call failed, and the
    state of the model after the last call made. *)
Fixpoint followup_replies {W : Type} (tg : TextGenerator W) (base_q : pystr)
    (fus : list pystr) (w : W) : list pystr * bool * W :=
  match fus with
  | [] => ([], false, w)
  | fu :: more =>
      match gen_followup_answer tg base_q fu w with
      | (Some a, w') =>
          let '(rs, failed, w'') := followup_replies tg base_q more w' in
          (a :: rs, failed, w'')
      | (None, w') => ([], true, w')
      end
  end.

(** ** Lemmas on strings *)

Module PyStrFacts.
Import PyStr.

Lemma rstrip_snoc s c :
  rstrip (s ++ [c]) = if is_space c then rstrip s else s ++ [c].
Proof.
  induction s as [|d s IH]; simpl.
  - by destruct (is_space c).
  - rewrite IH. destruct (is_space c); [reflexivity |].
    by destruct s.
Qed.

(** [rstrip] is [lstrip] read from the other end. *)
Lemma rstrip_rev s : rstrip s = rev (lstrip (rev s)).
Proof.
  induction s as [|c s IH] using rev_ind; [reflexivity |].
  rewrite rstrip_snoc, rev_app_distr. simpl.
  destruct (is_space c); [exact IH |].
  simpl. by rewrite rev_involutive.
Qed.

Lemma rstrip_nil_spaces s : rstrip s = [] ↔ spaces s.
Proof.
  unfold spaces. induction s as [|c s IH]; simpl.
  - split; [constructor | reflexivity].
  - destruct (rstrip s) eqn:E.
    + destruct (is_space c) eqn:Ec.
      * split; [intros _; constructor; [assumption | by apply IH] | reflexivity].
      * split; [discriminate | intros Hs; inversion Hs; congruence].
    + split; [discriminate |].
      intros Hs. inversion Hs as [|? ? _ Hs']; subst.
      apply IH in Hs'. discriminate.
Qed.

Lemma rstrip_idem s : rstrip (rstrip s) = rstrip s.
Proof.
  induction s as [|c s IH]; simpl; [reflexivity |].
  destruct (rstrip s) as [|d t] eqn:E.
  - destruct (is_space c) eqn:Ec; simpl; [reflexivity | by rewrite Ec].
  - change (rstrip (c :: d :: t)) with
      (match rstrip (d :: t) with [] => if is_space c then [] else [c] | u => c :: u end).
    by rewrite IH.
Qed.

Lemma lstrip_starts_clean s : starts_clean (lstrip s).
Proof.
  induction s as [|c s IH]; simpl; [exact I |].
  destruct (is_space c) eqn:Ec; [assumption | exact Ec].
Qed.

Lemma lstrip_clean s : starts_clean s → lstrip s = s.
Proof. destruct s as [|c s]; simpl; [reflexivity | by intros ->]. Qed.

Lemma rstrip_starts_clean s : starts_clean s → starts_clean (rstrip s).
Proof.
  destruct s as [|c s]; simpl; [exact id |]. intros Hc.
  destruct (rstrip s); [by rewrite Hc | exact Hc].
Qed.

Lemma lstrip_spaces s : spaces s → lstrip s = [].
Proof. induction 1 as [|c s Hc _ IH]; simpl; [reflexivity | by rewrite Hc]. Qed.

Lemma starts_clean_spaces s : starts_clean s → spaces s → s = [].
Proof. destruct s; [reflexivity |]. simpl. intros Hc Hs. inversion Hs. congruence. Qed.

(** A trimmed text is left alone by [strip]. *)
Lemma strip_rstrip_lstrip s : strip (rstrip (lstrip s)) = rstrip (lstrip s).
Proof.
  unfold strip. rewrite rstrip_idem.
  apply lstrip_clean, rstrip_starts_clean, lstrip_starts_clean.
Qed.

Lemma Forall_lstrip (P : N → Prop) s : Forall P s → Forall P (lstrip s).
Proof.
  induction 1 as [|c s Hc Hs IH]; simpl; [constructor |].
  destruct (is_space c); [assumption | by constructor].
Qed.

Lemma Forall_rstrip (P : N → Prop) s : Forall P s → Forall P (rstrip s).
Proof.
  induction 1 as [|c s Hc Hs IH]; simpl; [constructor |].
  destruct (rstrip s).
  - destruct (is_space c); [constructor | by repeat constructor].
  - by constructor.
Qed.

Lemma linebreak_newline c : is_linebreak c = false → (c =? 10) = false.
Proof.
  unfold is_linebreak. destruct (N.eqb_spec c 10) as [->|]; [| reflexivity].
  vm_compute. exact id.
Qed.

End PyStrFacts.

(** ** Lemmas on the matcher *)

Module RegexFacts.
Import Regex.

Section Star.
Context {R : Type} (p : N → bool) (g : option pystr) (k : pos → option R).

(** The longest run is tried first: when the continuation accepts
    there, that is the result. *)
Lemma star_greedy w t acc r :
  Forall (λ c, p c = true) w →
  match t with c :: _ => p c = false | [] => True end →
  k (Pos (rev w ++ acc) t g) = Some r →
  star p g k acc (w ++ t) = Some r.
Proof.
  intros Hw Ht. revert acc.
  induction Hw as [|c w Hc _ IH]; intros acc Hk; simpl in *.
  - destruct t as [|c t]; simpl; [assumption | by rewrite Ht].
  - rewrite Hc, IH; [reflexivity |]. by rewrite <- app_assoc in Hk.
Qed.

(** When the continuation refuses every way of cutting the text, so
    does the repetition. *)
Lemma star_none s acc :
  (∀ w t, s = w ++ t → k (Pos (rev w ++ acc) t g) = None) →
  star p g k acc s = None.
Proof.
  revert acc. induction s as [|c s IH]; intros acc Hk; simpl.
  - exact (Hk [] [] eq_refl).
  - pose proof (Hk [] (c :: s) eq_refl) as H0. simpl in H0. rewrite H0.
    destruct (p c); [| reflexivity].
    rewrite IH; [reflexivity |].
    intros w t ->. specialize (Hk (c :: w) t eq_refl).
    simpl in Hk. by rewrite <- app_assoc in Hk.
Qed.
End Star.

(** A repetition followed by one character outside its class never
    backtracks: only the end of the run can match. *)
Lemma star_then_chr {R} (p q : N → bool) g (k : pos → option R) s acc :
  (∀ c, p c = true → q c = false) →
  ∃ acc', star p g (λ st, run (Chr q) st k) acc s
          = run (Chr q) (Pos acc' (drop_run p s) g) k.
Proof.
  intros Hpq. revert acc. induction s as [|c s IH]; intros acc; cbn [star drop_run].
  - by exists acc.
  - destruct (p c) eqn:Hc.
    + destruct (IH (c :: acc)) as [acc' ->]. exists acc'.
      destruct (run (Chr q) (Pos acc' _ g) k); [reflexivity |].
      cbn. by rewrite (Hpq c Hc).
    + by exists acc.
Qed.

Lemma drop_run_split (p : N → bool) s :
  ∃ w, s = w ++ drop_run p s ∧ Forall (λ c, p c = true) w.
Proof.
  induction s as [|c s (w & Hs & Hw)]; simpl.
  - by exists [].
  - destruct (p c) eqn:Hc.
    + exists (c :: w). split; [simpl; congruence | by constructor].
    + by exists [].
Qed.

Lemma drop_run_head (p : N → bool) s :
  match drop_run p s with c :: _ => p c = false | [] => True end.
Proof.
  induction s as [|c s IH]; simpl; [exact I |].
  destruct (p c) eqn:Hc; [assumption | exact Hc].
Qed.

Lemma drop_run_lstrip s : drop_run PyStr.is_space s = PyStr.lstrip s.
Proof. induction s as [|c s IH]; simpl; [reflexivity | by rewrite IH]. Qed.

Lemma Forall_drop_run (P : N → Prop) p s : Forall P s → Forall P (drop_run p s).
Proof.
  induction 1 as [|c s Hc Hs IH]; simpl; [constructor |].
  destruct (p c); [assumption | by constructor].
Qed.

End RegexFacts.

Section PatternFacts.
Context `{UnicodeDB}.
Import Regex PyStr PyStrFacts RegexFacts.

Local Abbreviation tail_re :=
  (Seq (Group (Seq (Star any_char) (Chr non_space))) (Seq (Star is_space) Eol)).

Lemma spaces_then_eol g acc s :
  spaces s → star is_space g (λ st, run Eol st accept) acc s = Some g.
Proof.
  intros Hs. rewrite <- (app_nil_r s).
  apply star_greedy; [exact Hs | exact I | reflexivity].
Qed.

Lemma take_consumed (l acc : pystr) :
  take (length (l ++ acc) - length acc) (l ++ acc) = l.
Proof.
  rewrite length_app, Nat.add_sub. apply take_app_length.
Qed.

(** The group and what follows it: the text up to its last character
    that is no space, if it has one. *)
Lemma run_tail acc s g :
  no_newline s →
  run tail_re (Pos acc s g) accept
  = match rstrip s with [] => None | b => Some (Some b) end.
Proof.
  intros Hs. cbn [run seen_rev rest group1].
  set (KK := λ st' : pos, _).
  assert (Hgen : ∀ s pre, no_newline s →
    star any_char g KK (rev pre ++ acc) s
    = match rstrip s with [] => None | b => Some (Some (pre ++ b)) end).
  { clear s Hs. induction s as [|c s IH]; intros pre Hs.
    - reflexivity.
    - inversion Hs as [|? ? Hc Hs']; subst.
      cbn [star]. unfold any_char at 1. rewrite Hc. cbn [negb].
      specialize (IH (pre ++ [c]) Hs').
      rewrite rev_app_distr in IH. simpl in IH. rewrite IH.
      cbn [rstrip]. destruct (rstrip s) as [|d t] eqn:E.
      + unfold KK. cbn [rest seen_rev]. unfold non_space.
        destruct (is_space c); cbn [negb]; [reflexivity |].
        etrans; [apply spaces_then_eol; by apply rstrip_nil_spaces |].
        change (c :: rev pre ++ acc) with ((c :: rev pre) ++ acc).
        rewrite take_consumed. simpl. by rewrite rev_involutive.
      + by rewrite <- app_assoc. }
  apply (Hgen s []), Hs.
Qed.

(** Spaces, then the group: the maximal run of spaces is skipped. *)
Lemma run_spaces_tail acc s g :
  no_newline s →
  star is_space g (λ st, run tail_re st accept) acc s
  = match rstrip (lstrip s) with [] => None | b => Some (Some b) end.
Proof.
  intros Hs.
  destruct (drop_run_split is_space s) as (w & Hsplit & Hw).
  pose proof (drop_run_head is_space s) as Hhead.
  rewrite drop_run_lstrip in Hsplit, Hhead.
  assert (Hl : no_newline (lstrip s)) by by apply Forall_lstrip.
  destruct (rstrip (lstrip s)) as [|d t] eqn:E.
  - apply star_none. intros w' t' ->.
    rewrite run_tail by (apply Forall_app in Hs; tauto).
    assert (Hall : spaces (w' ++ t')).
    { apply rstrip_nil_spaces in E.
      rewrite (starts_clean_spaces _ (lstrip_starts_clean _) E), app_nil_r in Hsplit.
      by rewrite Hsplit. }
    apply Forall_app in Hall as [_ Ht'].
    apply rstrip_nil_spaces in Ht'. by rewrite Ht'.
  - rewrite Hsplit at 1. apply star_greedy; [exact Hw | exact Hhead |].
    rewrite run_tail by exact Hl. by rewrite E.
Qed.

Local Abbreviation numbered_re :=
  (Seq (Plus is_digit) (Seq (Chr is_dot) (Star is_space))).
Local Abbreviation bulleted_re := (Seq (Chr is_bullet) (Star is_space)).

Lemma digit_not_dot c : is_digit c = true → is_dot c = false.
Proof.
  unfold is_dot. destruct (N.eqb_spec c 46) as [->|]; [| reflexivity].
  vm_compute. discriminate.
Qed.

Lemma no_newline_cons c s : no_newline (c :: s) → no_newline s.
Proof. intros Hs. by inversion Hs. Qed.

(** The numbered marker, then the group. *)
Lemma run_numbered acc s g :
  no_newline s →
  run numbered_re (Pos acc s g) (λ st, run tail_re st accept)
  = match rstrip (numbered_rest s) with [] => None | b => Some (Some b) end.
Proof.
  intros Hs. destruct s as [|d s]; [reflexivity |].
  apply no_newline_cons in Hs.
  unfold numbered_rest.
  change (run numbered_re (Pos acc (d :: s) g) (λ st, run tail_re st accept))
    with (if is_digit d
          then star is_digit g
                 (λ st, run (Chr is_dot) st
                          (λ st', star is_space (group1 st')
                                    (λ st'', run tail_re st'' accept)
                                    (seen_rev st') (rest st')))
                 (d :: acc) s
          else None).
  destruct (is_digit d); [| reflexivity].
  destruct (star_then_chr is_digit is_dot g
              (λ st', star is_space (group1 st')
                        (λ st'', run tail_re st'' accept)
                        (seen_rev st') (rest st'))
              s (d :: acc) digit_not_dot) as [acc' ->].
  pose proof (Forall_drop_run _ is_digit s Hs) as Hd.
  destruct (drop_run is_digit s) as [|c r]; [reflexivity |].
  cbn [run rest seen_rev group1].
  destruct (is_dot c); [| reflexivity].
  apply run_spaces_tail. by apply no_newline_cons in Hd.
Qed.

(** The bullet, then the group. *)
Lemma run_bulleted acc s g :
  no_newline s →
  run bulleted_re (Pos acc s g) (λ st, run tail_re st accept)
  = match rstrip (bulleted_rest s) with [] => None | b => Some (Some b) end.
Proof.
  intros Hs. destruct s as [|c r]; [reflexivity |].
  apply no_newline_cons in Hs. unfold bulleted_rest.
  change (run bulleted_re (Pos acc (c :: r) g) (λ st, run tail_re st accept))
    with (if is_bullet c
          then star is_space g (λ st'', run tail_re st'' accept) (c :: acc) r
          else None).
  destruct (is_bullet c); [| reflexivity].
  by apply run_spaces_tail.
Qed.

Local Abbreviation body_re := (Seq (Opt (Alt numbered_re bulleted_re)) tail_re).

(** The optional marker and the group, on a line body. *)
Lemma run_body acc s g :
  no_newline s →
  run body_re (Pos acc s g) accept
  = match body_text s with [] => None | b => Some (Some b) end.
Proof.
  intros Hs.
  change (run body_re (Pos acc s g) accept)
    with (match
            match run numbered_re (Pos acc s g) (λ st, run tail_re st accept) with
            | Some x => Some x
            | None => run bulleted_re (Pos acc s g) (λ st, run tail_re st accept)
            end
          with
          | Some x => Some x
          | None => run tail_re (Pos acc s g) accept
          end).
  rewrite run_numbered, run_bulleted, run_tail by exact Hs.
  unfold body_text.
  destruct (rstrip (numbered_rest s)); [| reflexivity].
  destruct (rstrip (bulleted_rest s)); [| reflexivity].
  by destruct (rstrip s).
Qed.

Lemma Forall_numbered_rest (P : N → Prop) s :
  Forall P s → Forall P (numbered_rest s).
Proof.
  intros Hs. unfold numbered_rest. destruct s as [|d s]; [constructor |].
  destruct (is_digit d); [| constructor].
  inversion Hs as [|? ? _ Hs']; subst.
  pose proof (Forall_drop_run P is_digit s Hs') as Hd.
  destruct (drop_run is_digit s) as [|c r]; [constructor |].
  destruct (is_dot c); [| constructor].
  inversion Hd; subst. by apply Forall_lstrip.
Qed.

Lemma Forall_bulleted_rest (P : N → Prop) s :
  Forall P s → Forall P (bulleted_rest s).
Proof.
  intros Hs. unfold bulleted_rest. destruct s as [|c r]; [constructor |].
  destruct (is_bullet c); [| constructor].
  inversion Hs; subst. by apply Forall_lstrip.
Qed.

Lemma Forall_body_text (P : N → Prop) s :
  Forall P s → Forall P (body_text s).
Proof.
  intros Hs. unfold body_text.
  pose proof (Forall_rstrip P _ (Forall_numbered_rest P s Hs)) as H1.
  pose proof (Forall_rstrip P _ (Forall_bulleted_rest P s Hs)) as H2.
  pose proof (Forall_rstrip P _ Hs) as H3.
  destruct (rstrip (numbered_rest s)); [| exact H1].
  destruct (rstrip (bulleted_rest s)); [| exact H2].
  exact H3.
Qed.

Lemma rstrip_body_text s : rstrip (body_text s) = body_text s.
Proof.
  unfold body_text.
  destruct (rstrip (numbered_rest s)) eqn:E1; [| rewrite <- E1; apply rstrip_idem].
  destruct (rstrip (bulleted_rest s)) eqn:E2; [| rewrite <- E2; apply rstrip_idem].
  apply rstrip_idem.
Qed.

Lemma body_text_spaces s : spaces s → body_text s = [].
Proof.
  intros Hs. rewrite <- rstrip_body_text.
  apply rstrip_nil_spaces. by apply Forall_body_text.
Qed.

(** The text of a line body is trimmed on both sides. *)
Lemma body_text_trimmed s :
  starts_clean s → ∃ y, body_text s = rstrip (lstrip y).
Proof.
  intros Hs. unfold body_text.
  assert (H1 : ∃ y, numbered_rest s = lstrip y).
  { unfold numbered_rest. destruct s as [|d s']; [by exists [] |].
    destruct (is_digit d); [| by exists []].
    destruct (drop_run is_digit s') as [|c r]; [by exists [] |].
    destruct (is_dot c); [by exists r | by exists []]. }
  assert (H2 : ∃ y, bulleted_rest s = lstrip y).
  { unfold bulleted_rest. destruct s as [|c r]; [by exists [] |].
    destruct (is_bullet c); [by exists r | by exists []]. }
  destruct H1 as [y1 E1], H2 as [y2 E2]. rewrite E1, E2.
  destruct (rstrip (lstrip y1)) eqn:F1.
  - destruct (rstrip (lstrip y2)) eqn:F2.
    + exists s. by rewrite (lstrip_clean s Hs).
    + exists y2. by rewrite F2.
  - exists y1. by rewrite F1.
Qed.

Local Abbreviation stripped_re := (Seq (Star is_space) body_re).

(** The whole pattern on a line without newline. *)
Lemma re_match_line raw :
  no_newline raw →
  re_match line_re raw
  = match body_text (lstrip raw) with [] => None | b => Some (Some b) end.
Proof.
  intros Hraw. unfold re_match.
  change (run line_re (Pos [] raw None) accept)
    with (star is_space None (λ st, run body_re st accept) [] raw).
  destruct (drop_run_split is_space raw) as (w & Hsplit & Hw).
  pose proof (drop_run_head is_space raw) as Hhead.
  rewrite drop_run_lstrip in Hsplit, Hhead.
  assert (Hl : no_newline (lstrip raw)) by by apply Forall_lstrip.
  destruct (body_text (lstrip raw)) as [|d t] eqn:E.
  - apply star_none. intros w' t' ->.
    rewrite run_body by (apply Forall_app in Hraw; tauto).
    assert (Hb : lstrip (w' ++ t') = []).
    { destruct (body_text_trimmed _ (lstrip_starts_clean (w' ++ t'))) as [y Hy].
      unfold body_text in E.
      destruct (rstrip (numbered_rest _)); [| discriminate].
      destruct (rstrip (bulleted_rest _)); [| discriminate].
      apply rstrip_nil_spaces in E.
      exact (starts_clean_spaces _ (lstrip_starts_clean _) E). }
    rewrite Hb, app_nil_r in Hsplit.
    assert (Ht' : spaces t').
    { rewrite <- Hsplit in Hw. apply Forall_app in Hw. tauto. }
    by rewrite (body_text_spaces _ Ht').
  - rewrite Hsplit at 1. apply star_greedy; [exact Hw | exact Hhead |].
    rewrite run_body by exact Hl. by rewrite E.
Qed.

(** One iteration of the loop, before the duplicate test, on a line
    without newline. *)
Lemma line_item_text raw : no_newline raw → line_item raw = line_text raw.
Proof.
  intros Hraw. unfold line_item, line_text.
  rewrite re_match_line by exact Hraw.
  destruct (body_text_trimmed _ (lstrip_starts_clean raw)) as [y Hy].
  destruct (body_text (lstrip raw)) as [|d t] eqn:E; [reflexivity |].
  cbn [default]. change (id (d :: t)) with (d :: t).
  rewrite Hy, strip_rstrip_lstrip, <- Hy. reflexivity.
Qed.

End PatternFacts.

(** ** Lemmas on [splitlines] *)

Module SplitFacts.
Import PyStr PyStrFacts.

Lemma one_line_rev s : one_line s → one_line (rev s).
Proof. apply List.Forall_rev. Qed.

(** No line of [splitlines] holds a line boundary. *)
Lemma splitlines_from_one_line s :
  ∀ cur, one_line cur → Forall one_line (splitlines_from cur s).
Proof.
  assert (Hn : ∀ n s, (length s ≤ n)%nat →
            ∀ cur, one_line cur → Forall one_line (splitlines_from cur s)).
  { clear s. induction n as [|n IH]; intros s Hlen cur Hcur.
    - destruct s; [| simpl in Hlen; lia]. simpl.
      destruct cur; [constructor |]. repeat constructor. by apply one_line_rev.
    - destruct s as [|c s]; simpl.
      { destruct cur; [constructor |]. repeat constructor. by apply one_line_rev. }
      simpl in Hlen. destruct (is_linebreak c) eqn:Hc.
      + constructor; [by apply one_line_rev |].
        destruct (c =? 13); [| apply IH; [lia | constructor]].
        destruct s as [|d s']; [apply IH; [simpl; lia | constructor] |].
        simpl in Hlen.
        destruct (d =? 10); apply IH; simpl; (lia || constructor).
      + apply IH; [lia |]. by constructor. }
  apply (Hn (length s)). lia.
Qed.

Lemma splitlines_one_line s : Forall one_line (splitlines s).
Proof. apply splitlines_from_one_line. constructor. Qed.

(** A line closed by a newline. *)
Lemma splitlines_from_line l cur more :
  one_line l →
  splitlines_from cur (l ++ 10 :: more) = (rev cur ++ l) :: splitlines_from [] more.
Proof.
  intros Hl. revert cur. induction Hl as [|c l Hc _ IH]; intros cur; simpl.
  - by rewrite app_nil_r.
  - rewrite Hc, IH. simpl. by rewrite <- app_assoc.
Qed.

(** A last line without newline. *)
Lemma splitlines_from_last l cur :
  one_line l → l ≠ [] → splitlines_from cur l = [rev cur ++ l].
Proof.
  intros Hl. revert cur. induction Hl as [|c l Hc Hl IH]; intros cur Hne; [done |].
  simpl. rewrite Hc. destruct l as [|d l].
  - simpl. reflexivity.
  - rewrite IH by done. simpl. by rewrite <- app_assoc.
Qed.

(** Lines joined by newlines split back into themselves. *)
Lemma splitlines_join ls :
  Forall (λ l, one_line l ∧ l ≠ []) ls → splitlines (join [10] ls) = ls.
Proof.
  unfold splitlines. induction 1 as [|p ls [Hp Hne] Hls IH]; [reflexivity |].
  destruct ls as [|q ls].
  - simpl. by rewrite splitlines_from_last.
  - change (join [10] (p :: q :: ls)) with (p ++ 10 :: join [10] (q :: ls)).
    rewrite splitlines_from_line by exact Hp. by rewrite IH.
Qed.

End SplitFacts.

(** ** Lemmas on the loop of [_parse] *)

Section ParseFacts.
Context `{UnicodeDB}.
Import PyStr PyStrFacts RegexFacts SplitFacts.

Lemma filter_all {A} (P : A → Prop) `{!∀ x, Decision (P x)} (l : list A) :
  Forall P l → filter P l = l.
Proof.
  induction 1 as [|x l Hx _ IH]; [reflexivity |].
  by rewrite filter_cons_True, IH.
Qed.

Lemma keep_first_elem l x : x ∈ keep_first l ↔ x ∈ l.
Proof.
  induction l as [|y l IH]; simpl; [reflexivity |].
  rewrite !elem_of_cons, list_elem_of_filter, IH.
  destruct (decide (x = y)); naive_solver.
Qed.


Lemma keep_first_id l : NoDup l → keep_first l = l.
Proof.
  induction 1 as [|y l Hy _ IH]; simpl; [reflexivity |].
  rewrite IH. f_equal. apply filter_all.
  apply Forall_forall. intros x Hx ->. contradiction.
Qed.

(** The loop, from any point it can be in: [seen] holds the items
    collected so far, fewer than [k]. *)
Lemma parse_loop_spec (k : Z) lines :
  ∀ items (seen : gset pystr),
  (∀ x, x ∈ seen ↔ x ∈ items) →
  (Z.of_nat (length items) < k)%Z →
  parse_loop k lines items seen
  = take (Z.to_nat k)
      (items ++ filter (λ y, y ∉ items) (keep_first (omap line_item lines))).
Proof.
  induction lines as [|raw more IH]; intros items seen Hseen Hlen.
  - simpl. rewrite app_nil_r, take_ge; [reflexivity | lia].
  - cbn [parse_loop omap list_omap]. destruct (line_item raw) as [t|]; [| by apply IH].
    cbn [keep_first]. destruct (decide (t ∈ seen)) as [Hin|Hin].
    + apply Hseen in Hin.
      destruct (Z.leb_spec k (Z.of_nat (length items))); [lia |].
      rewrite IH by assumption. f_equal. f_equal.
      rewrite filter_cons_False by naive_solver.
      symmetry. apply list_filter_filter_l. intros y Hy ->. contradiction.
    + assert (Hnew : t ∉ items) by (by rewrite <- Hseen).
      rewrite filter_cons_True by exact Hnew.
      rewrite list_filter_filter.
      replace (items ++ t :: filter (λ a, (a ∉ items) ∧ a ≠ t)
                               (keep_first (omap line_item more)))
        with ((items ++ [t]) ++ filter (λ a, (a ∉ items) ∧ a ≠ t)
                                 (keep_first (omap line_item more)))
        by (by rewrite <- app_assoc).
      destruct (Z.leb_spec k (Z.of_nat (length (items ++ [t])))) as [Hk|Hk].
      * rewrite take_app_length'; [reflexivity |].
        rewrite length_app in *. simpl in *. lia.
      * rewrite IH; [| set_solver | exact Hk].
        f_equal. f_equal. apply list_filter_iff.
        intros y. rewrite elem_of_app, list_elem_of_singleton. naive_solver.
Qed.

Lemma parse_keep_first text (k : Z) :
  (0 < k)%Z →
  _parse text k
  = take (Z.to_nat k) (keep_first (omap line_item (splitlines text))).
Proof.
  intros Hk. unfold _parse. rewrite parse_loop_spec; [| set_solver | simpl; lia].
  simpl. f_equal. apply filter_all, Forall_forall. intros x _. apply not_elem_of_nil.
Qed.

(** Whatever [k] is, the items are distinct and each one is what its
    line gave. *)
Lemma parse_loop_inv (P : pystr → Prop) (k : Z) lines :
  Forall (λ raw, ∀ t, line_item raw = Some t → P t) lines →
  ∀ items (seen : gset pystr),
  (∀ x, x ∈ seen ↔ x ∈ items) → NoDup items → Forall P items →
  NoDup (parse_loop k lines items seen) ∧ Forall P (parse_loop k lines items seen).
Proof.
  induction 1 as [|raw more Hraw _ IH]; intros items seen Hseen Hnd HP; [done |].
  cbn [parse_loop]. destruct (line_item raw) as [t|]; [| by apply IH].
  specialize (Hraw t eq_refl).
  destruct (decide (t ∈ seen)) as [Hin|Hin].
  - destruct (k <=? _)%Z; [done | by apply IH].
  - assert (Hnew : t ∉ items) by (by rewrite <- Hseen).
    assert (NoDup (items ++ [t])).
    { apply NoDup_app. split_and!; [done | | apply NoDup_singleton].
      intros x Hx ->%list_elem_of_singleton. contradiction. }
    assert (Forall P (items ++ [t])) by (apply Forall_app; by repeat constructor).
    destruct (k <=? _)%Z; [done |]. apply IH; [set_solver | done | done].
Qed.

Lemma one_line_no_newline s : one_line s → no_newline s.
Proof. intros Hs. eapply Forall_impl; [exact Hs |]. intros c. apply linebreak_newline. Qed.

Lemma line_item_clean raw t : one_line raw → line_item raw = Some t → clean t.
Proof.
  intros Hraw. rewrite line_item_text by by apply one_line_no_newline.
  unfold line_text.
  pose proof (Forall_body_text _ _ (Forall_lstrip _ _ Hraw)) as Hone.
  pose proof (rstrip_body_text (lstrip raw)) as Hr.
  destruct (body_text_trimmed _ (lstrip_starts_clean raw)) as [y Hy].
  destruct (body_text (lstrip raw)) as [|d b] eqn:E; [discriminate |].
  destruct (is_header (d :: b)) eqn:Hh; [discriminate |].
  intros [= <-]. split_and!; [done | exact Hone | | exact Hr | exact Hh].
  rewrite Hy. apply rstrip_starts_clean, lstrip_starts_clean.
Qed.

Lemma parse_clean text (k : Z) : NoDup (_parse text k) ∧ Forall clean (_parse text k).
Proof.
  unfold _parse. apply parse_loop_inv; [| set_solver | constructor | constructor].
  eapply Forall_impl; [apply splitlines_one_line |].
  intros raw Hraw t. by apply line_item_clean.
Qed.

Lemma uint_codes_decimal d : Forall decimal_char (uint_codes d).
Proof. induction d; simpl; constructor; try assumption; by repeat split. Qed.

Lemma uint_codes_nil d : uint_codes d = [] → d = Nil.
Proof. by destruct d. Qed.

Lemma str_of_int_pos (i : Z) :
  (0 < i)%Z → str_of_int i ≠ [] ∧ Forall decimal_char (str_of_int i).
Proof.
  destruct i as [|p|p]; try lia. intros _. simpl. split.
  - intros Hnil%uint_codes_nil. by apply (Unsigned.to_uint_nonnil p).
  - apply uint_codes_decimal.
Qed.

Lemma drop_run_app (p : N → bool) w t :
  Forall (λ c, p c = true) w →
  match t with c :: _ => p c = false | [] => True end →
  drop_run p (w ++ t) = t.
Proof.
  induction 1 as [|c w Hc _ IH]; intros Ht; simpl.
  - destruct t; simpl; [reflexivity | by rewrite Ht].
  - rewrite Hc. by apply IH.
Qed.

(** A clean item comes back from its numbered line. *)
Lemma line_item_rendered (i : Z) t :
  (0 < i)%Z → clean t → line_item (str_of_int i ++ lit ". " ++ t) = Some t.
Proof.
  intros Hi (Hne & Hone & Hstart & Hr & Hh).
  destruct (str_of_int_pos i Hi) as [Hdne Hdig].
  destruct (str_of_int i) as [|d ds]; [done |].
  inversion Hdig as [|? ? (Hd & Hsp & Hlb) Hds]; subst.
  rewrite line_item_text.
  2:{ apply one_line_no_newline. constructor; [exact Hlb |].
      apply Forall_app. split; [eapply Forall_impl; [exact Hds | by intros ? (_ & _ & ?)] |].
      by repeat constructor. }
  unfold line_text.
  change ((d :: ds) ++ lit ". " ++ t) with (d :: ds ++ 46 :: 32 :: t).
  cbn [lstrip]. rewrite Hsp.
  assert (Hb : body_text (d :: ds ++ 46 :: 32 :: t) = t).
  { unfold body_text, numbered_rest. rewrite Hd.
    rewrite drop_run_app;
      [| eapply Forall_impl; [exact Hds | by intros ? (? & _ & _)] | reflexivity].
    change (is_dot 46) with true. cbn [lstrip].
    change (is_space 32) with true. cbv iota.
    rewrite (lstrip_clean t Hstart), Hr.
    destruct t; [done | reflexivity]. }
  rewrite Hb. destruct t; [done |]. by rewrite Hh.
Qed.

Lemma omap_menu_lines m : ∀ i : Z,
  (0 < i)%Z → Forall clean m → omap line_item (menu_lines i m) = m.
Proof.
  induction m as [|q m IH]; intros i Hi Hm; [reflexivity |].
  inversion Hm; subst. cbn [menu_lines omap list_omap].
  rewrite line_item_rendered by assumption.
  f_equal. apply IH; [lia | assumption].
Qed.

Lemma menu_lines_one_line m : ∀ i : Z,
  (0 < i)%Z → Forall clean m →
  Forall (λ l, one_line l ∧ l ≠ []) (menu_lines i m).
Proof.
  induction m as [|q m IH]; intros i Hi Hm; [constructor |].
  inversion Hm as [|? ? (_ & Hone & _) Hm']; subst.
  destruct (str_of_int_pos i Hi) as [Hdne Hdig].
  cbn [menu_lines]. constructor; [| apply IH; [lia | assumption]]. split.
  - apply Forall_app. split; [eapply Forall_impl; [exact Hdig | by intros ? (_ & _ & ?)] |].
    apply Forall_app. split; [by repeat constructor | exact Hone].
  - destruct (str_of_int i); done.
Qed.

Lemma splitlines_menu_text m :
  m ≠ [] → Forall clean m →
  splitlines (menu_text_of (lit "Follow-ups") m)
  = [] :: [] :: lit "Follow-ups:" :: menu_lines 1 m.
Proof.
  intros Hne Hm. destruct m as [|q m]; [done |].
  unfold splitlines.
  change (menu_text_of (lit "Follow-ups") (q :: m))
    with ([] ++ 10 :: [] ++ 10 :: lit "Follow-ups:"
             ++ 10 :: join [10] (menu_lines 1 (q :: m))).
  rewrite !splitlines_from_line; [| by repeat constructor | constructor | constructor].
  do 3 f_equal. apply splitlines_join, menu_lines_one_line; [lia | exact Hm].
Qed.

(** On the lines of a text, one iteration of the loop is [line_text]. *)
Lemma line_items_of_text text :
  omap line_item (splitlines text) = omap line_text (splitlines text).
Proof.
  pose proof (splitlines_one_line text) as Hlines.
  induction Hlines as [|raw lines Hraw _ IH]; [reflexivity |].
  cbn [omap list_omap].
  rewrite line_item_text by by apply one_line_no_newline.
  by rewrite IH.
Qed.

(** Parsing the rendering of a clean menu gives the menu back. *)
Lemma parse_menu_text m (k : Z) :
  NoDup m → Forall clean m → (Z.of_nat (length m) ≤ k)%Z →
  _parse (menu_text_of (lit "Follow-ups") m) k = m.
Proof.
  intros Hnd Hm Hk. destruct (decide (m = [])) as [->|Hne]; [reflexivity |].
  assert (0 < k)%Z by (destruct m; [done | simpl in Hk; lia]).
  rewrite parse_keep_first by assumption.
  rewrite splitlines_menu_text by assumption.
  change (omap line_item ([] :: [] :: lit "Follow-ups:" :: menu_lines 1 m))
    with (omap line_item (menu_lines 1 m)).
  rewrite omap_menu_lines by (lia || assumption).
  rewrite keep_first_id by exact Hnd.
  apply take_ge. lia.
Qed.

End ParseFacts.

(** ** Lemmas on the flow *)

Section FlowFacts.
Context {W : Type} (tg : TextGenerator W) `{UnicodeDB}.

(** The loop that fills the cache: it answers the first [j] entries and
    either ends ([j] is the whole menu) or raises at entry [j + 1]. *)
Lemma fill_answers_outcome base_q fus : ∀ (idx : Z) (m : Machine W) r m',
  fill_answers tg base_q idx fus m = (r, m') →
  ∃ j : nat,
    (j ≤ length fus)%nat ∧
    k_followups (flow m') = k_followups (flow m) ∧
    base (flow m') = base (flow m) ∧
    menu (flow m') = menu (flow m) ∧
    dom (answers (flow m'))
      = dom (answers (flow m)) ∪ list_to_set (seqZ idx (Z.of_nat j)) ∧
    match r with
    | inr _ => j = length fus ∧
               calls m' = calls m ++ map (CallFollowup base_q) fus
    | inl _ => (j < length fus)%nat ∧
               calls m' = calls m ++ map (CallFollowup base_q) (take (S j) fus)
    end.
Proof.
  induction fus as [|fu more IH]; intros idx m r m' Hrun.
  - injection Hrun as <- <-. exists 0%nat.
    split; [done |]. split; [done |]. split; [done |]. split; [done |].
    split; [simpl; set_solver |]. split; [done |]. simpl. by rewrite app_nil_r.
  - cbn [fill_answers] in Hrun. unfold bind, answer_fu, invoke in Hrun.
    destruct (gen_followup_answer tg base_q fu (world m)) as [[a|] w'] eqn:Hgen.
    2:{ injection Hrun as <- <-. exists 0%nat. cbn.
        split; [lia |]. split; [done |]. split; [done |]. split; [done |].
        split; [set_solver |]. split; [lia | done]. }
    + cbn in Hrun. apply IH in Hrun as (j & Hj & Hk & Hb & Hm & Hdom & Hr).
      cbn in Hk, Hb, Hm, Hdom, Hr.
      exists (S j).
      split; [simpl; lia |]. split; [done |]. split; [done |]. split; [done |].
      split.
      * rewrite Hdom, dom_insert_L.
        rewrite (seqZ_cons idx) by lia.
        replace (Z.pred (Z.of_nat (S j))) with (Z.of_nat j) by lia.
        replace (Z.succ idx) with (idx + 1)%Z by lia.
        set_solver.
      * destruct r; destruct Hr as [Hj' ->]; rewrite <- app_assoc; simpl;
          (split; [lia | done]).
Qed.

(** The same loop against the replies of the model: the cache receives
    the replies to the first entries, at consecutive keys from [idx]. *)
Lemma fill_answers_replies base_q fus : ∀ (idx : Z) (m : Machine W) rs failed w',
  followup_replies tg base_q fus (world m) = (rs, failed, w') →
  ∃ m',
    fill_answers tg base_q idx fus m
      = (if failed then inl GenerationFailure else inr tt, m') ∧
    k_followups (flow m') = k_followups (flow m) ∧
    base (flow m') = base (flow m) ∧
    menu (flow m') = menu (flow m) ∧
    (∀ i : Z,
       answers (flow m') !! i
       = if ((idx <=? i) && (i <? idx + Z.of_nat (length rs)))%Z
         then rs !! Z.to_nat (i - idx) else answers (flow m) !! i) ∧
    world m' = w' ∧
    calls m' = calls m ++ map (CallFollowup base_q)
                 (take (if failed then S (length rs) else length rs) fus) ∧
    (if failed then (length rs < length fus)%nat else length rs = length fus).
Proof.
  induction fus as [|fu more IH]; intros idx m rs failed w' Hrs.
  - injection Hrs as <- <- <-. exists m. cbn. split_and!; try done.
    + intros i. destruct (Z.leb_spec idx i), (Z.ltb_spec i (idx + Z.of_nat 0));
        simpl; (done || lia).
    + by rewrite app_nil_r.
  - cbn [followup_replies] in Hrs. cbn [fill_answers].
    unfold bind, answer_fu, invoke.
    destruct (gen_followup_answer tg base_q fu (world m)) as [[a|] w1] eqn:Hgen.
    2:{ injection Hrs as <- <- <-. eexists. split; [reflexivity |]. cbn.
        split_and!; try done; [| lia].
        intros i. destruct (Z.leb_spec idx i), (Z.ltb_spec i (idx + Z.of_nat 0));
          simpl; (done || lia). }
    destruct (followup_replies tg base_q more w1) as [[rs1 f1] w2] eqn:Hmore.
    injection Hrs as <- <- <-. cbn -[fill_answers].
    destruct (IH (idx + 1)%Z
                (Build_Machine (set_answers (<[idx := a]> (answers (flow m))) (flow m))
                   w1 (calls m ++ [CallFollowup base_q fu])) rs1 f1 w2 Hmore)
      as (m' & Hrun & Hk & Hb & Hm & Hans & Hw & Hc & Hlen).
    cbn in Hk, Hb, Hm, Hans, Hc.
    exists m'. split; [exact Hrun |]. split_and!; try done.
    + intros i. rewrite Hans.
      destruct (Z.leb_spec (idx + 1) i), (Z.ltb_spec i (idx + 1 + Z.of_nat (length rs1)));
        destruct (Z.leb_spec idx i), (Z.ltb_spec i (idx + Z.of_nat (S (length rs1))));
        simpl; try lia; try (rewrite lookup_insert_ne by lia; done).
      * replace (Z.to_nat (i - idx)) with (S (Z.to_nat (i - (idx + 1)))) by lia. done.
      * assert (i = idx) as -> by lia. rewrite lookup_insert_eq.
        by replace (Z.to_nat (idx - idx)) with 0%nat by lia.
    + rewrite Hc, <- app_assoc. by destruct f1.
    + destruct f1; simpl; lia.
Qed.

(** The loop raises only when the model does. *)
Lemma fill_answers_raises base_q fus : ∀ (idx : Z) (m : Machine W) e m',
  fill_answers tg base_q idx fus m = (inl e, m') → e = GenerationFailure.
Proof.
  induction fus as [|fu more IH]; intros idx m e m' Hrun; [discriminate |].
  cbn [fill_answers] in Hrun. unfold bind, answer_fu, invoke in Hrun.
  destruct (gen_followup_answer tg base_q fu (world m)) as [[a|] w'].
  - cbn in Hrun. by apply IH in Hrun.
  - by injection Hrun as <- _.
Qed.

Lemma rotate_unfold (idx : Z) (m : Machine W) sel :
  py_index (menu (flow m)) (idx - 1) = Some sel →
  let ctx := rotate_context sel (default [] (answers (flow m) !! idx)) in
  rotate_next_layer tg idx m =
    match gen_followups tg ctx (world m) with
    | (None, w1) =>
        (inl GenerationFailure,
         Build_Machine (set_base (Some sel) (flow m)) w1
           (calls m ++ [CallPropose ctx]))
    | (Some raw, w1) =>
        let nm := _parse (default [] raw) (k_followups (flow m)) in
        match fill_answers tg sel 1 nm (fresh_layer m sel nm w1 (CallPropose ctx)) with
        | (inr _, m') => (inr (menu (flow m')), m')
        | (inl e, m') => (inl e, m')
        end
    end.
Proof.
  intros Hsel ctx. unfold rotate_next_layer, bind, get_flow. rewrite Hsel.
  unfold propose, bind, invoke, set_flow, ret.
  cbn -[rotate_context _parse fill_answers].
  fold ctx. destruct (gen_followups tg ctx (world m)) as [[raw|] w1]; [| reflexivity].
  cbn -[rotate_context _parse fill_answers]. unfold fresh_layer.
  by destruct (fill_answers tg sel 1 _ _) as [[e|[]] m'].
Qed.

Lemma rotate_index_error (idx : Z) (m : Machine W) :
  py_index (menu (flow m)) (idx - 1) = None →
  rotate_next_layer tg idx m = (inl IndexError, m).
Proof.
  intros Hsel. unfold rotate_next_layer, bind, get_flow. by rewrite Hsel.
Qed.

Lemma ask_unfold (question : pystr) (m : Machine W) :
  ask tg question m =
    match gen_answer tg question (world m) with
    | (None, w0) =>
        (inl GenerationFailure,
         Build_Machine (set_base (Some question) (flow m)) w0
           (calls m ++ [CallMain question]))
    | (Some main_answer, w0) =>
        let ctx := ask_context question main_answer in
        let m0 := Build_Machine (flow m) w0 (calls m ++ [CallMain question]) in
        match gen_followups tg ctx w0 with
        | (None, w1) =>
            (inl GenerationFailure,
             Build_Machine (set_base (Some question) (flow m)) w1
               (calls m0 ++ [CallPropose ctx]))
        | (Some raw, w1) =>
            let nm := _parse (default [] raw) (k_followups (flow m)) in
            match fill_answers tg question 1 nm
                    (fresh_layer m0 question nm w1 (CallPropose ctx)) with
            | (inr _, m') =>
                (inr (main_answer ++ menu_text_of (lit "Follow-ups") (menu (flow m')),
                      menu (flow m')), m')
            | (inl e, m') => (inl e, m')
            end
        end
    end.
Proof.
  unfold ask, bind, main_answerer, propose, bind, invoke, set_flow, get_flow, ret,
    _menu_text, bind, get_flow, ret.
  cbn -[ask_context _parse fill_answers menu_text_of lit].
  destruct (gen_answer tg question (world m)) as [[main_answer|] w0]; [| reflexivity].
  cbn -[ask_context _parse fill_answers menu_text_of lit].
  destruct (gen_followups tg _ w0) as [[raw|] w1]; [| reflexivity].
  cbn -[ask_context _parse fill_answers menu_text_of lit]. unfold fresh_layer.
  cbn -[ask_context _parse fill_answers menu_text_of lit].
  by destruct (fill_answers tg question 1 _ _) as [[e|[]] m'].
Qed.

End FlowFacts.

(** ** Indexing *)

Lemma py_index_None {A} (l : list A) (i : Z) :
  py_index l i = None ↔ (Z.of_nat (length l) ≤ i ∨ i < - Z.of_nat (length l))%Z.
Proof.
  unfold py_index. destruct (Z.leb_spec 0 i) as [Hi|Hi].
  - rewrite lookup_ge_None. lia.
  - destruct (Z.leb_spec (- Z.of_nat (length l)) i) as [Hl|Hl].
    + split; [| lia]. intros Hnone%lookup_ge_None. lia.
    + split; [lia | done].
Qed.


Lemma py_index_minus_one {A} (l : list A) : py_index l (0 - 1) = last l.
Proof.
  unfold py_index. change (0 - 1)%Z with (-1)%Z. change (0 <=? -1)%Z with false.
  cbv iota. destruct l as [|x l]; [done |].
  destruct (Z.leb_spec (- Z.of_nat (length (x :: l))) (-1)) as [_|Hl];
    [| rewrite length_cons in Hl; lia].
  rewrite last_lookup. f_equal. rewrite length_cons. lia.
Qed.

Section Claims.
Context {W : Type} (tg : TextGenerator W) `{UnicodeDB}.

(** A layer whose cache was filled to the end. *)
Lemma layer_filled (m : Machine W) b nm w c u m' :
  fill_answers tg b 1 nm (fresh_layer m b nm w c) = (inr u, m') →
  k_followups (flow m') = k_followups (flow m) ∧
  base (flow m') = Some b ∧ menu (flow m') = nm ∧
  dom (answers (flow m')) = list_to_set (seqZ 1 (Z.of_nat (length nm))) ∧
  calls m' = calls m ++ c :: map (CallFollowup b) nm.
Proof.
  intros (j & _ & Hk & Hb & Hm & Hdom & -> & Hc)%fill_answers_outcome.
  cbn in Hk, Hb, Hm, Hdom, Hc. split_and!; try done.
  - rewrite Hdom, dom_empty_L. set_solver.
  - by rewrite Hc, <- app_assoc.
Qed.

(** A layer whose cache was being filled when the model raised. *)
Lemma layer_failed (m : Machine W) b nm w c e m' :
  fill_answers tg b 1 nm (fresh_layer m b nm w c) = (inl e, m') →
  k_followups (flow m') = k_followups (flow m) ∧
  base (flow m') = Some b ∧ menu (flow m') = nm ∧
  ∃ j : nat, (j < length nm)%nat ∧
    dom (answers (flow m')) = list_to_set (seqZ 1 (Z.of_nat j)) ∧
    calls m' = calls m ++ c :: map (CallFollowup b) (take (S j) nm).
Proof.
  intros (j & _ & Hk & Hb & Hm & Hdom & Hj & Hc)%fill_answers_outcome.
  cbn in Hk, Hb, Hm, Hdom, Hc. split_and!; try done.
  exists j. split_and!; try done.
  - rewrite Hdom, dom_empty_L. set_solver.
  - by rewrite Hc, <- app_assoc.
Qed.

Lemma peek_unfold (idx : Z) (m : Machine W) :
  peek_immediate idx m = (inr (peek_result (flow m) idx), m).
Proof.
  unfold peek_immediate, peek_result, bind, get_flow, ret.
  by destruct (negb _).
Qed.

(** A fresh layer against the replies of the model to its menu. *)
Lemma layer_replies (m : Machine W) b nm w c rs failed w2 :
  followup_replies tg b nm w = (rs, failed, w2) →
  ∃ m',
    fill_answers tg b 1 nm (fresh_layer m b nm w c)
      = (if failed then inl GenerationFailure else inr tt, m') ∧
    k_followups (flow m') = k_followups (flow m) ∧
    base (flow m') = Some b ∧ menu (flow m') = nm ∧
    (∀ i : Z,
       answers (flow m') !! i
       = if ((1 <=? i) && (i <=? Z.of_nat (length rs)))%Z
         then rs !! Z.to_nat (i - 1) else None) ∧
    world m' = w2 ∧
    calls m' = calls m ++ c :: map (CallFollowup b)
                 (take (if failed then S (length rs) else length rs) nm) ∧
    (if failed then (length rs < length nm)%nat else length rs = length nm).
Proof.
  intros Hrs.
  destruct (fill_answers_replies tg b nm 1 (fresh_layer m b nm w c) rs failed w2 Hrs)
    as (m' & Hrun & Hk & Hb & Hm & Hans & Hw & Hc & Hlen).
  cbn in Hk, Hb, Hm, Hans, Hc.
  exists m'. split; [exact Hrun |]. split_and!; try done.
  - intros i. rewrite Hans, lookup_empty.
    destruct (Z.leb_spec 1 i), (Z.ltb_spec i (1 + Z.of_nat (length rs))),
      (Z.leb_spec i (Z.of_nat (length rs))); simpl; (done || lia).
  - by rewrite Hc, <- app_assoc.
Qed.

(** A layer that failed while its cache was filled: a follow-up answer
    of the model failed. *)
Lemma layer_failed_replies (m : Machine W) b nm w c e m' :
  fill_answers tg b 1 nm (fresh_layer m b nm w c) = (inl e, m') →
  e = GenerationFailure ∧
  ∃ rs w2, followup_replies tg b nm w = (rs, true, w2).
Proof.
  intros Hrun. split; [by eapply fill_answers_raises |].
  destruct (followup_replies tg b nm w) as [[rs failed] w2] eqn:Hrs.
  destruct (layer_replies m b nm w c rs failed w2 Hrs) as (m2 & Hrun2 & _).
  rewrite Hrun in Hrun2. destruct failed; [by exists rs, w2 | discriminate].
Qed.

(** C1, as the code has it: when a call of the model fails during [ask]
    or [rotate_next_layer] the failure propagates, whichever call it is,
    but the object is not restored.  The base question is already the new
    one.  When the main answer or the proposal fails, the menu and the
    cache are the ones from before the call.  When the proposal came and
    the answer to entry [j + 1] of its parsed menu fails, the menu is that
    parsed menu and the cache holds the model's answers to its first [j]
    entries, at keys 1..[j], and nothing else.  The operations fail in no
    other way once the selected follow-up is found. *)
Theorem failure_leaves_partial_layer (m : Machine W) :
  let k := k_followups (flow m) in
  let rebased (b : pystr) : Flow :=
    {| k_followups := k; base := Some b;
       menu := menu (flow m); answers := answers (flow m) |} in
  let partial (b : pystr) (nm rs : list pystr) (f : Flow) : Prop :=
    k_followups f = k ∧ base f = Some b ∧ menu f = nm ∧
    (length rs < length nm)%nat ∧
    ∀ i : Z, answers f !! i
             = if ((1 <=? i) && (i <=? Z.of_nat (length rs)))%Z
               then rs !! Z.to_nat (i - 1) else None in
  (∀ question,
     let ctx (a : pystr) : pystr :=
       lit "User question: " ++ question ++ [10] ++ lit "Answer: " ++ a in
     (∀ w0,
        gen_answer tg question (world m) = (None, w0) →
        ask tg question m
        = (inl GenerationFailure,
           Build_Machine (rebased question) w0 (calls m ++ [CallMain question]))) ∧
     (∀ a w0 w1,
        gen_answer tg question (world m) = (Some a, w0) →
        gen_followups tg (ctx a) w0 = (None, w1) →
        ask tg question m
        = (inl GenerationFailure,
           Build_Machine (rebased question) w1
             (calls m ++ [CallMain question; CallPropose (ctx a)]))) ∧
     (∀ a w0 raw w1 rs w2,
        gen_answer tg question (world m) = (Some a, w0) →
        gen_followups tg (ctx a) w0 = (Some raw, w1) →
        followup_replies tg question (_parse (default [] raw) k) w1 = (rs, true, w2) →
        ∃ m',
          ask tg question m = (inl GenerationFailure, m') ∧
          partial question (_parse (default [] raw) k) rs (flow m') ∧
          world m' = w2 ∧
          calls m'
          = calls m ++ CallMain question :: CallPropose (ctx a)
              :: map (CallFollowup question)
                   (take (S (length rs)) (_parse (default [] raw) k))) ∧
     (∀ e m',
        ask tg question m = (inl e, m') →
        e = GenerationFailure ∧
        ((∃ w0, gen_answer tg question (world m) = (None, w0))
         ∨ (∃ a w0 w1,
              gen_answer tg question (world m) = (Some a, w0) ∧
              gen_followups tg (ctx a) w0 = (None, w1))
         ∨ (∃ a w0 raw w1 rs w2,
              gen_answer tg question (world m) = (Some a, w0) ∧
              gen_followups tg (ctx a) w0 = (Some raw, w1) ∧
              followup_replies tg question (_parse (default [] raw) k) w1
              = (rs, true, w2))))) ∧
  (∀ idx sel,
     py_index (menu (flow m)) (idx - 1) = Some sel →
     let ctx : pystr :=
       lit "Base: " ++ sel ++ [10] ++ lit "Answer: "
       ++ default [] (answers (flow m) !! idx) in
     (∀ w1,
        gen_followups tg ctx (world m) = (None, w1) →
        rotate_next_layer tg idx m
        = (inl GenerationFailure,
           Build_Machine (rebased sel) w1 (calls m ++ [CallPropose ctx]))) ∧
     (∀ raw w1 rs w2,
        gen_followups tg ctx (world m) = (Some raw, w1) →
        followup_replies tg sel (_parse (default [] raw) k) w1 = (rs, true, w2) →
        ∃ m',
          rotate_next_layer tg idx m = (inl GenerationFailure, m') ∧
          partial sel (_parse (default [] raw) k) rs (flow m') ∧
          world m' = w2 ∧
          calls m'
          = calls m ++ CallPropose ctx
              :: map (CallFollowup sel)
                   (take (S (length rs)) (_parse (default [] raw) k))) ∧
     (∀ e m',
        rotate_next_layer tg idx m = (inl e, m') →
        e = GenerationFailure ∧
        ((∃ w1, gen_followups tg ctx (world m) = (None, w1))
         ∨ (∃ raw w1 rs w2,
              gen_followups tg ctx (world m) = (Some raw, w1) ∧
              followup_replies tg sel (_parse (default [] raw) k) w1
              = (rs, true, w2))))).
Proof.
  intros k rebased partial. split.
  - intros question ctx. subst ctx. cbv beta. rewrite ask_unfold.
    unfold ask_context. split_and!.
    + by intros w0 ->.
    + intros a w0 w1 -> Hprop. cbv zeta. rewrite Hprop.
      cbn [calls]. by rewrite <- app_assoc.
    + intros a w0 raw w1 rs w2 -> Hprop Hrs. cbv zeta. rewrite Hprop.
      destruct (layer_replies
                  (Build_Machine (flow m) w0 (calls m ++ [CallMain question]))
                  question (_parse (default [] raw) k) w1
                  (CallPropose (lit "User question: " ++ question ++ [10]
                                ++ lit "Answer: " ++ a)) rs true w2 Hrs)
        as (m' & Hrun & Hk & Hb & Hm & Hans & Hw & Hc & Hlen).
      cbn [flow calls] in Hk, Hc. unfold k in *. rewrite Hrun.
      exists m'. split; [done |]. split; [by unfold partial |].
      split; [done |]. by rewrite Hc, <- app_assoc.
    + intros e m'.
      destruct (gen_answer tg question (world m)) as [[a|] w0].
      2:{ intros [= <- <-]. split; [done |]. left. by exists w0. }
      cbv zeta. destruct (gen_followups tg _ w0) as [[raw|] w1] eqn:Hprop.
      2:{ intros [= <- <-]. split; [done |]. right. left. by exists a, w0, w1. }
      destruct (fill_answers tg question 1 _ _) as [[e2|u] m2] eqn:Hfill;
        [| discriminate].
      intros [= <- <-].
      apply layer_failed_replies in Hfill as (-> & rs & w2 & Hrs).
      split; [done |]. right. right. by exists a, w0, raw, w1, rs, w2.
  - intros idx sel Hsel ctx. rewrite (rotate_unfold tg idx m sel Hsel).
    unfold rotate_context. fold ctx. cbv zeta. split_and!.
    + by intros w1 ->.
    + intros raw w1 rs w2 -> Hrs.
      destruct (layer_replies m sel (_parse (default [] raw) k) w1
                  (CallPropose ctx) rs true w2 Hrs)
        as (m' & Hrun & Hk & Hb & Hm & Hans & Hw & Hc & Hlen).
      unfold k in *. rewrite Hrun.
      exists m'. split; [done |]. split; [by unfold partial |]. done.
    + intros e m'.
      destruct (gen_followups tg ctx (world m)) as [[raw|] w1] eqn:Hprop.
      2:{ intros [= <- <-]. split; [done |]. left. by exists w1. }
      destruct (fill_answers tg sel 1 _ _) as [[e2|u] m2] eqn:Hfill;
        [| discriminate].
      intros [= <- <-].
      apply layer_failed_replies in Hfill as (-> & rs & w2 & Hrs).
      split; [done |]. right. by exists raw, w1, rs, w2.
Qed.

(** C2: after a successful [ask] and any successful [rotate_next_layer]
    calls that follow, the keys of the cache are exactly
    1, ..., [len(menu)]. *)
Theorem cache_keys_are_menu_indices (m : Machine W) :
  layered tg m →
  dom (answers (flow m))
  = list_to_set (seqZ 1 (Z.of_nat (length (menu (flow m))))).
Proof.
  induction 1 as [m question r m' Hask | m idx r m' _ _ Hrot | m idx r m' _ IH Hpeek].
  - rewrite ask_unfold in Hask.
    destruct (gen_answer tg question (world m)) as [[main_answer|] w0];
      [| discriminate].
    cbv zeta in Hask.
    destruct (gen_followups tg _ w0) as [[raw|] w1]; [| discriminate].
    destruct (fill_answers tg question 1 _ _) as [[e2|u] m2] eqn:Hfill;
      [discriminate |].
    injection Hask as _ <-.
    apply layer_filled in Hfill as (_ & _ & Hm & Hdom & _). by rewrite Hm.
  - destruct (py_index (menu (flow m)) (idx - 1)) as [sel|] eqn:Hsel.
    2:{ rewrite rotate_index_error in Hrot by exact Hsel. discriminate. }
    rewrite (rotate_unfold tg idx m sel Hsel) in Hrot. cbv zeta in Hrot.
    destruct (gen_followups tg _ (world m)) as [[raw|] w1]; [| discriminate].
    destruct (fill_answers tg sel 1 _ _) as [[e2|u] m2] eqn:Hfill;
      [discriminate |].
    injection Hrot as _ <-.
    apply layer_filled in Hfill as (_ & _ & Hm & Hdom & _). by rewrite Hm.
  - rewrite peek_unfold in Hpeek. by injection Hpeek as _ <-.
Qed.

(** C3: outside 1..[len(menu)] the answer is the message that names the
    bound, and nothing is raised; inside, it is the answer cached at that
    index (the placeholder when the cache has none there, which does not
    happen while the keys of the cache are 1..[len(menu)]). *)
Theorem peek_immediate_result (m : Machine W) (idx : Z) :
  let n := length (menu (flow m)) in
  (¬ (1 ≤ idx ≤ Z.of_nat n)%Z →
     peek_immediate idx m
     = (inr (lit "Please choose a number between 1 and "
             ++ PyStr.str_of_int (Z.of_nat n) ++ lit "."), m)) ∧
  ((1 ≤ idx ≤ Z.of_nat n)%Z →
     (∀ a, answers (flow m) !! idx = Some a →
           peek_immediate idx m = (inr a, m)) ∧
     (answers (flow m) !! idx = None →
      peek_immediate idx m = (inr (lit "Sorry, no cached answer found."), m)) ∧
     (dom (answers (flow m)) = list_to_set (seqZ 1 (Z.of_nat n)) →
      ∃ a, answers (flow m) !! idx = Some a ∧
           peek_immediate idx m = (inr a, m))) ∧
  (n = 3%nat →
     peek_immediate 5 m
     = (inr (lit "Please choose a number between 1 and 3."), m)).
Proof.
  intros n. rewrite !peek_unfold. unfold peek_result. fold n. split_and!.
  - intros Hout.
    destruct (Z.leb_spec 1 idx), (Z.leb_spec idx (Z.of_nat n)); simpl;
      (reflexivity || lia).
  - intros Hin.
    destruct (Z.leb_spec 1 idx), (Z.leb_spec idx (Z.of_nat n)); try lia.
    simpl. split_and!.
    + by intros a ->.
    + by intros ->.
    + intros Hdom.
      assert (Hi : idx ∈ dom (answers (flow m))).
      { rewrite Hdom, elem_of_list_to_set, elem_of_seqZ. lia. }
      apply elem_of_dom in Hi as [a Ha]. exists a. by rewrite Ha.
  - intros ->. reflexivity.
Qed.

(** C4: [peek_immediate] leaves the machine as it found it: the object,
    the model, and the list of calls made. *)
Theorem peek_immediate_pure (m : Machine W) (idx : Z) :
  snd (peek_immediate idx m) = m.
Proof. by rewrite peek_unfold. Qed.

End Claims.

Section ParserClaims.
Context `{UnicodeDB}.
Import PyStr.


(** C6: a menu that [_parse] produced, rendered by [_menu_text] and
    parsed again with a limit that is at least its length, comes back
    as it was. *)
Theorem parse_rendered_menu (text : pystr) (k0 k : Z) :
  (Z.of_nat (length (_parse text k0)) ≤ k)%Z →
  _parse (menu_text_of (lit "Follow-ups") (_parse text k0)) k = _parse text k0.
Proof.
  intros Hk. destruct (parse_clean text k0) as [Hnd Hclean].
  by apply parse_menu_text.
Qed.

(** C7, on the code: a line that holds a marker and nothing else is not
    skipped, its marker becomes a menu item.  On every line of every text
    the loop computes [line_text]: the marker is stripped only when text
    follows it.  The scenario of the claim holds. *)
Theorem marker_only_line_kept :
  _parse (lit "1. ") 4 = [lit "1."] ∧
  _parse (lit "- ") 4 = [lit "-"] ∧
  _parse (lit "3." ++ [10] ++ lit "- Q1") 4 = [lit "3."; lit "Q1"] ∧
  _parse (lit "Follow-ups:" ++ [10] ++ lit "- Q1" ++ [10] ++ lit "- Q2") 4
    = [lit "Q1"; lit "Q2"] ∧
  (∀ text, omap line_item (splitlines text) = omap line_text (splitlines text)).
Proof.
  split_and!; [by vm_compute | by vm_compute | by vm_compute | by vm_compute |].
  apply line_items_of_text.
Qed.

End ParserClaims.

Section LayerClaims.
Context {W : Type} (tg : TextGenerator W) `{UnicodeDB}.


(** A machine without menu: every selection is out of range and every
    rotation raises, leaving the machine alone. *)
Lemma empty_menu_selections (m : Machine W) :
  menu (flow m) = [] →
  (∀ idx, peek_immediate idx m = (inr (out_of_range 0), m)) ∧
  (∀ idx, rotate_next_layer tg idx m = (inl IndexError, m)).
Proof.
  intros Hm. split; intros idx.
  - rewrite peek_unfold. unfold peek_result. rewrite Hm. cbn [length].
    by destruct (Z.leb_spec 1 idx), (Z.leb_spec idx (Z.of_nat 0)); try lia.
  - apply rotate_index_error, py_index_None. rewrite Hm. cbn [length]. lia.
Qed.

(** C9: when the proposal parses to no question, [ask] and
    [rotate_next_layer] return with an empty menu and an empty cache,
    and from then on every [peek_immediate] gives the out-of-range
    message (and every [rotate_next_layer] raises and changes nothing).
    An empty or missing proposal text is such a proposal. *)
Theorem empty_proposal_gives_empty_layer (m : Machine W) :
  (∀ question main_answer w0 raw w1,
     gen_answer tg question (world m) = (Some main_answer, w0) →
     gen_followups tg (ask_context question main_answer) w0 = (Some raw, w1) →
     _parse (default [] raw) (k_followups (flow m)) = [] →
     ∃ m', ask tg question m = (inr (main_answer, []), m') ∧
           menu (flow m') = [] ∧ answers (flow m') = ∅ ∧
           (∀ idx, peek_immediate idx m' = (inr (out_of_range 0), m')) ∧
           (∀ idx, rotate_next_layer tg idx m' = (inl IndexError, m'))) ∧
  (∀ idx sel raw w1,
     py_index (menu (flow m)) (idx - 1) = Some sel →
     gen_followups tg
       (rotate_context sel (default [] (answers (flow m) !! idx))) (world m)
       = (Some raw, w1) →
     _parse (default [] raw) (k_followups (flow m)) = [] →
     ∃ m', rotate_next_layer tg idx m = (inr [], m') ∧
           menu (flow m') = [] ∧ answers (flow m') = ∅ ∧
           (∀ idx', peek_immediate idx' m' = (inr (out_of_range 0), m')) ∧
           (∀ idx', rotate_next_layer tg idx' m' = (inl IndexError, m'))) ∧
  (∀ k : Z, _parse [] k = [] ∧ _parse (default [] None) k = []) ∧
  out_of_range 0 = lit "Please choose a number between 1 and 0.".
Proof.
  split_and!.
  - intros question main_answer w0 raw w1 Hmain Hprop Hparse.
    rewrite ask_unfold, Hmain. cbv zeta. rewrite Hprop, Hparse.
    eexists. cbn [fill_answers ret]. rewrite app_nil_r.
    split; [reflexivity |]. split; [reflexivity |]. split; [reflexivity |].
    by apply empty_menu_selections.
  - intros idx sel raw w1 Hsel Hprop Hparse.
    rewrite (rotate_unfold tg idx m sel Hsel). cbv zeta. rewrite Hprop, Hparse.
    eexists. cbn [fill_answers ret].
    split; [reflexivity |]. split; [reflexivity |]. split; [reflexivity |].
    by apply empty_menu_selections.
  - done.
  - reflexivity.
Qed.

(** C10, as the code has it: the lookup of the selected follow-up fails
    exactly when the index is above the length of the menu or not above
    its negation, and then the call raises and changes nothing; index 0
    on a menu that is not empty selects its last entry and makes it the
    base question. *)
Theorem rotate_index_lookup (m : Machine W) :
  let n := Z.of_nat (length (menu (flow m))) in
  (∀ idx, py_index (menu (flow m)) (idx - 1) = None ↔ (n < idx ∨ idx ≤ - n)%Z) ∧
  (∀ idx, (n < idx ∨ idx ≤ - n)%Z →
          rotate_next_layer tg idx m = (inl IndexError, m)) ∧
  (∀ idx, fst (rotate_next_layer tg idx m) = inl IndexError →
          (n < idx ∨ idx ≤ - n)%Z) ∧
  (menu (flow m) ≠ [] →
     py_index (menu (flow m)) (0 - 1) = last (menu (flow m)) ∧
     is_Some (last (menu (flow m))) ∧
     fst (rotate_next_layer tg 0 m) ≠ inl IndexError ∧
     base (flow (snd (rotate_next_layer tg 0 m))) = last (menu (flow m))).
Proof.
  intros n.
  assert (Hnone : ∀ idx,
    py_index (menu (flow m)) (idx - 1) = None ↔ (n < idx ∨ idx ≤ - n)%Z).
  { intros idx. rewrite py_index_None. fold n. lia. }
  assert (Hraise : ∀ idx, fst (rotate_next_layer tg idx m) = inl IndexError →
                          (n < idx ∨ idx ≤ - n)%Z).
  { intros idx Hfail. apply Hnone.
    destruct (py_index (menu (flow m)) (idx - 1)) as [sel|] eqn:Hsel; [| done].
    rewrite (rotate_unfold tg idx m sel Hsel) in Hfail. cbv zeta in Hfail.
    destruct (gen_followups tg _ (world m)) as [[raw|] w1]; [| done].
    destruct (fill_answers tg sel 1 _ _) as [[e2|u] m2] eqn:Hfill; [| done].
    apply fill_answers_raises in Hfill as ->. done. }
  split_and!; [exact Hnone | | exact Hraise |].
  - intros idx Hidx. by apply rotate_index_error, Hnone.
  - intros Hne. pose proof (py_index_minus_one (menu (flow m))) as Hlast.
    assert (Hsome : is_Some (last (menu (flow m)))).
    { rewrite last_lookup. apply lookup_lt_is_Some.
      destruct (menu (flow m)); [done | simpl; lia]. }
    split_and!; [exact Hlast | exact Hsome | |].
    { intros Hfail%Hraise. destruct (menu (flow m)); [done |].
      subst n. rewrite length_cons in Hfail. lia. }
    destruct Hsome as [sel Hsel]. rewrite Hsel in Hlast |- *.
    rewrite (rotate_unfold tg 0 m sel Hlast). cbv zeta.
    destruct (gen_followups tg _ (world m)) as [[raw|] w1]; [| done].
    destruct (fill_answers tg sel 1 _ _) as [[e2|u] m2] eqn:Hfill.
    + by apply layer_failed in Hfill as (_ & Hb & _).
    + by apply layer_filled in Hfill as (_ & Hb & _).
Qed.

End LayerClaims.

(** ** The scenarios, run *)

Section Scenarios.
#[local] Existing Instance ascii_tables.

Abbreviation SW := (list (option pystr)).

(** Scenario 1 of the specification. *)
Example scenario_ask_tcp :
  menu (flow tcp_asked) = [udp_question; handshake_question] ∧
  base (flow tcp_asked) = Some tcp_question ∧
  answers (flow tcp_asked)
    = <[1%Z := lit "UDP is a datagram protocol."]>
        (<[2%Z := lit "SYN, SYN-ACK, ACK."]> ∅).
Proof. by vm_compute. Qed.

(** C1 fails on the code: the second follow-up answer of the new layer
    fails, the call raises, and the object keeps the new base question,
    the new menu of two entries and a cache with the first answer only. *)
Lemma failed_rotation_is_observed :
  let r := rotate_next_layer scripted 2 tcp_asked in
  fst r = inl GenerationFailure ∧
  flow (snd r) ≠ flow tcp_asked ∧
  base (flow tcp_asked) = Some tcp_question ∧
  base (flow (snd r)) = Some handshake_question ∧
  menu (flow tcp_asked) = [udp_question; handshake_question] ∧
  menu (flow (snd r)) = [lit "Why three steps?"; lit "What is a SYN flood?"] ∧
  answers (flow (snd r)) = {[ 1%Z := lit "Both sides confirm." ]}.
Proof.
  cbv zeta. split; [by vm_compute |]. split.
  - intros Heq. apply (f_equal base) in Heq. vm_compute in Heq. discriminate.
  - split_and!; by vm_compute.
Qed.

(** C1 as amended, at the failed rotation above: the proposal comes, the
    answer to its first entry comes, the answer to its second entry
    fails. *)
Lemma failure_leaves_partial_layer_witness :
  let ctx : pystr :=
    lit "Base: " ++ handshake_question ++ [10] ++ lit "Answer: "
    ++ default [] (answers (flow tcp_asked) !! 2%Z) in
  let raw : option pystr :=
    Some (lit "Why three steps?" ++ [10] ++ lit "What is a SYN flood?") in
  let nm := _parse (default [] raw) (k_followups (flow tcp_asked)) in
  let rs := [lit "Both sides confirm."] in
  py_index (menu (flow tcp_asked)) (2 - 1) = Some handshake_question ∧
  gen_followups scripted ctx (world tcp_asked)
    = (Some raw, [Some (lit "Both sides confirm."); None]) ∧
  followup_replies scripted handshake_question nm
    [Some (lit "Both sides confirm."); None] = (rs, true, []) ∧
  ∃ m',
    rotate_next_layer scripted 2 tcp_asked = (inl GenerationFailure, m') ∧
    (k_followups (flow m') = k_followups (flow tcp_asked) ∧
     base (flow m') = Some handshake_question ∧
     menu (flow m') = nm ∧
     (length rs < length nm)%nat ∧
     ∀ i : Z, answers (flow m') !! i
              = if ((1 <=? i) && (i <=? Z.of_nat (length rs)))%Z
                then rs !! Z.to_nat (i - 1) else None) ∧
    world m' = [] ∧
    calls m'
    = calls tcp_asked ++ CallPropose ctx
        :: map (CallFollowup handshake_question) (take (S (length rs)) nm).
Proof.
  cbv zeta.
  assert (Hsel : py_index (menu (flow tcp_asked)) (2 - 1) = Some handshake_question)
    by (vm_compute; reflexivity).
  assert (Hprop :
    gen_followups scripted
      (lit "Base: " ++ handshake_question ++ [10] ++ lit "Answer: "
       ++ default [] (answers (flow tcp_asked) !! 2%Z)) (world tcp_asked)
    = (Some (Some (lit "Why three steps?" ++ [10] ++ lit "What is a SYN flood?")),
       [Some (lit "Both sides confirm."); None]))
    by (vm_compute; reflexivity).
  assert (Hrs :
    followup_replies scripted handshake_question
      (_parse (default [] (Some (lit "Why three steps?" ++ [10]
                                 ++ lit "What is a SYN flood?")))
         (k_followups (flow tcp_asked)))
      [Some (lit "Both sides confirm."); None]
    = ([lit "Both sides confirm."], true, []))
    by (vm_compute; reflexivity).
  split; [exact Hsel |]. split; [exact Hprop |]. split; [exact Hrs |].
  exact (proj1 (proj2 (proj2 (failure_leaves_partial_layer scripted tcp_asked)
                         2%Z handshake_question Hsel))
           _ _ _ _ Hprop Hrs).
Defined.

(** C2 on the machine of the first scenario. *)
Lemma cache_keys_are_menu_indices_witness :
  layered scripted tcp_asked ∧
  dom (answers (flow tcp_asked))
  = list_to_set (seqZ 1 (Z.of_nat (length (menu (flow tcp_asked))))).
Proof.
  assert (Hl : layered scripted tcp_asked).
  { eapply (layered_ask scripted (boot 4 tcp_script) tcp_question).
    vm_compute. reflexivity. }
  split; [exact Hl |].
  exact (cache_keys_are_menu_indices scripted tcp_asked Hl).
Defined.

(** C3 at index 5 (out of range) and index 2 of the first scenario, and
    at index 5 of a menu of three entries. *)
Lemma peek_immediate_result_witness :
  (¬ (1 ≤ 5 ≤ Z.of_nat (length (menu (flow tcp_asked))))%Z ∧
   peek_immediate 5 tcp_asked
   = (inr (lit "Please choose a number between 1 and "
           ++ PyStr.str_of_int (Z.of_nat (length (menu (flow tcp_asked))))
           ++ lit "."), tcp_asked) ∧
   lit "Please choose a number between 1 and "
   ++ PyStr.str_of_int (Z.of_nat (length (menu (flow tcp_asked)))) ++ lit "."
   = lit "Please choose a number between 1 and 2.") ∧
  ((1 ≤ 2 ≤ Z.of_nat (length (menu (flow tcp_asked))))%Z ∧
   answers (flow tcp_asked) !! 2%Z = Some (lit "SYN, SYN-ACK, ACK.") ∧
   peek_immediate 2 tcp_asked = (inr (lit "SYN, SYN-ACK, ACK."), tcp_asked)) ∧
  (length (menu (flow three_asked)) = 3%nat ∧
   peek_immediate 5 three_asked
   = (inr (lit "Please choose a number between 1 and 3."), three_asked)).
Proof.
  assert (H5 : ¬ (1 ≤ 5 ≤ Z.of_nat (length (menu (flow tcp_asked))))%Z)
    by (vm_compute; intros [_ Hle]; by apply Hle).
  assert (H2 : (1 ≤ 2 ≤ Z.of_nat (length (menu (flow tcp_asked))))%Z)
    by (vm_compute; split; discriminate).
  assert (Ha : answers (flow tcp_asked) !! 2%Z = Some (lit "SYN, SYN-ACK, ACK."))
    by (vm_compute; reflexivity).
  assert (H3 : length (menu (flow three_asked)) = 3%nat)
    by (vm_compute; reflexivity).
  split; [split; [exact H5 |] | split; [split; [exact H2 | split; [exact Ha |]] | split; [exact H3 |]]].
  - split; [exact (proj1 (peek_immediate_result tcp_asked 5) H5) |].
    vm_compute. reflexivity.
  - exact (proj1 (proj1 (proj2 (peek_immediate_result tcp_asked 2)) H2) _ Ha).
  - exact (proj2 (proj2 (peek_immediate_result three_asked 5)) H3).
Defined.


(** C6 on the menu of the first scenario, parsed again with limit 2. *)
Lemma parse_rendered_menu_witness :
  (Z.of_nat (length (_parse tcp_proposal 4)) ≤ 2)%Z ∧
  _parse (menu_text_of (lit "Follow-ups") (_parse tcp_proposal 4)) 2
  = _parse tcp_proposal 4.
Proof.
  assert (Hk : (Z.of_nat (length (_parse tcp_proposal 4)) ≤ 2)%Z)
    by (vm_compute; discriminate).
  split; [exact Hk |]. exact (parse_rendered_menu tcp_proposal 4 2 Hk).
Defined.


(** C9 on a model whose proposal is the empty text. *)
Lemma empty_proposal_gives_empty_layer_witness :
  let m := boot 4 silent_script in
  gen_answer scripted (lit "Hm?") (world m) = (Some (lit "No idea."), [Some []]) ∧
  gen_followups scripted (ask_context (lit "Hm?") (lit "No idea.")) [Some []]
    = (Some (Some []), []) ∧
  _parse (default [] (Some [])) (k_followups (flow m)) = [] ∧
  ∃ m', ask scripted (lit "Hm?") m = (inr (lit "No idea.", []), m') ∧
        menu (flow m') = [] ∧ answers (flow m') = ∅ ∧
        (∀ idx, peek_immediate idx m' = (inr (out_of_range 0), m')) ∧
        (∀ idx, rotate_next_layer scripted idx m' = (inl IndexError, m')).
Proof.
  cbv zeta.
  assert (Hmain : gen_answer scripted (lit "Hm?") (world (boot 4 silent_script))
                  = (Some (lit "No idea."), [Some []])) by reflexivity.
  assert (Hprop : gen_followups scripted (ask_context (lit "Hm?") (lit "No idea."))
                    [Some []] = (Some (Some []), [])) by reflexivity.
  assert (Hparse : _parse (default [] (Some []))
                     (k_followups (flow (boot 4 silent_script))) = []) by reflexivity.
  split; [exact Hmain |]. split; [exact Hprop |]. split; [exact Hparse |].
  exact (proj1 (empty_proposal_gives_empty_layer scripted (boot 4 silent_script))
           (lit "Hm?") (lit "No idea.") [Some []] (Some []) [] Hmain Hprop Hparse).
Defined.

(** C10 fails on the code: index -2 is not above the length of a menu of
    two entries, and the lookup of the selected follow-up fails. *)
Lemma negative_index_lookup_fails :
  length (menu (flow tcp_asked)) = 2%nat ∧
  (-2 <= Z.of_nat (length (menu (flow tcp_asked))))%Z ∧
  py_index (menu (flow tcp_asked)) (-2 - 1) = None ∧
  rotate_next_layer scripted (-2) tcp_asked = (inl IndexError, tcp_asked).
Proof. split_and!; by vm_compute. Qed.

(** C10 as amended, at indices 3 and 0 of the first scenario. *)
Lemma rotate_index_lookup_witness :
  ((Z.of_nat (length (menu (flow tcp_asked))) < 3
    ∨ 3 ≤ - Z.of_nat (length (menu (flow tcp_asked))))%Z ∧
   rotate_next_layer scripted 3 tcp_asked = (inl IndexError, tcp_asked)) ∧
  (menu (flow tcp_asked) ≠ [] ∧
   py_index (menu (flow tcp_asked)) (0 - 1) = last (menu (flow tcp_asked)) ∧
   is_Some (last (menu (flow tcp_asked))) ∧
   fst (rotate_next_layer scripted 0 tcp_asked) ≠ inl IndexError ∧
   base (flow (snd (rotate_next_layer scripted 0 tcp_asked)))
   = last (menu (flow tcp_asked))).
Proof.
  assert (H3 : (Z.of_nat (length (menu (flow tcp_asked))) < 3
                ∨ 3 ≤ - Z.of_nat (length (menu (flow tcp_asked))))%Z)
    by (left; vm_compute; reflexivity).
  assert (Hne : menu (flow tcp_asked) ≠ []) by (vm_compute; discriminate).
  split; [split; [exact H3 |] | split; [exact Hne |]].
  - exact (proj1 (proj2 (rotate_index_lookup scripted tcp_asked)) 3%Z H3).
  - exact (proj2 (proj2 (proj2 (rotate_index_lookup scripted tcp_asked))) Hne).
Defined.

(** Scenario 3 of the specification: rotating on the second entry. *)
Example scenario_rotate_on_second :
  let m := snd (ask scripted tcp_question
                  (boot 4 (take 4 tcp_script
                           ++ [Some (lit "Why three steps?"); Some (lit "Both sides confirm.")]))) in
  let r := rotate_next_layer scripted 2 m in
  fst r = inr [lit "Why three steps?"] ∧
  base (flow (snd r)) = Some handshake_question ∧
  answers (flow (snd r)) = {[ 1%Z := lit "Both sides confirm." ]}.
Proof. by vm_compute. Qed.

End Scenarios.

(** ** More on [_parse] *)

Section ParserExtras.
Context `{UnicodeDB}.
Import PyStr PyStrFacts SplitFacts.

(** X1: With a limit that is not positive the loop still takes one item: the
    test [len(items) >= k] comes after the item is stored. *)
Theorem parse_nonpositive_limit (text : pystr) (k : Z) :
  (k ≤ 0)%Z →
  _parse text k = take 1 (omap line_item (splitlines text)).
Proof.
  intros Hk. unfold _parse.
  induction (splitlines text) as [|raw lines IH]; [reflexivity |].
  cbn [parse_loop omap list_omap]. destruct (line_item raw) as [t|]; [| exact IH].
  destruct (decide (t ∈ (∅ : gset pystr))) as [Hin|_]; [set_solver |].
  cbn [app length]. by destruct (Z.leb_spec k (Z.of_nat 1)); [| lia].
Qed.

(** X2: Whatever the limit, every item of the menu is a non-empty text on one
    line, without space at either end, that is no header, and no item
    comes twice. *)
Theorem parse_items_trimmed (text : pystr) (k : Z) :
  NoDup (_parse text k) ∧
  Forall (λ t, t ≠ [] ∧ one_line t ∧ strip t = t ∧ is_header t = false)
         (_parse text k).
Proof.
  destruct (parse_clean text k) as [Hnd Hclean]. split; [exact Hnd |].
  eapply Forall_impl; [exact Hclean |].
  intros t (Hne & Hone & Hstart & Hr & Hh). split_and!; try done.
  unfold strip. rewrite Hr. by apply lstrip_clean.
Qed.

(** X3: A larger limit only adds items at the end. *)
Theorem parse_limit_prefix (text : pystr) (k k' : Z) :
  (0 < k ≤ k')%Z → _parse text k `prefix_of` _parse text k'.
Proof.
  intros [Hk Hk']. rewrite !parse_keep_first by lia.
  set (l := keep_first _).
  replace (take (Z.to_nat k) l) with (take (Z.to_nat k) (take (Z.to_nat k') l)).
  - apply prefix_take.
  - rewrite take_take. f_equal. lia.
Qed.

(** X4: The menu is empty exactly when no line of the text gives an item,
    whatever the limit; so it is for the empty text. *)
Theorem parse_empty_iff (text : pystr) (k : Z) :
  (_parse text k = [] ↔ omap line_item (splitlines text) = []) ∧
  _parse [] k = [].
Proof.
  split; [| reflexivity].
  destruct (Z.le_gt_cases k 0) as [Hk|Hk].
  - rewrite parse_nonpositive_limit by exact Hk.
    by destruct (omap line_item (splitlines text)).
  - rewrite parse_keep_first by lia.
    destruct (omap line_item (splitlines text)) as [|t l];
      [cbn [keep_first]; by rewrite take_nil |].
    cbn [keep_first]. destruct (Z.to_nat k) eqn:E; [lia |].
    cbn [take]. split; discriminate.
Qed.

Lemma splitlines_from_crlf l cur more :
  one_line l →
  splitlines_from cur (l ++ 13 :: 10 :: more)
  = (rev cur ++ l) :: splitlines_from [] more.
Proof.
  intros Hl. revert cur. induction Hl as [|c l Hc _ IH]; intros cur; simpl.
  - by rewrite app_nil_r.
  - rewrite Hc, IH. simpl. by rewrite <- app_assoc.
Qed.

Lemma splitlines_join_crlf ls :
  Forall (λ l, one_line l ∧ l ≠ []) ls → splitlines (join [13; 10] ls) = ls.
Proof.
  unfold splitlines. induction 1 as [|p ls [Hp Hne] Hls IH]; [reflexivity |].
  destruct ls as [|q ls].
  - simpl. by rewrite splitlines_from_last.
  - change (join [13; 10] (p :: q :: ls))
      with (p ++ 13 :: 10 :: join [13; 10] (q :: ls)).
    rewrite splitlines_from_crlf by exact Hp. by rewrite IH.
Qed.

(** X5: Lines that end in CR LF give the menu that lines ending in LF give. *)
Theorem parse_crlf (ls : list pystr) (k : Z) :
  Forall (λ l, one_line l ∧ l ≠ []) ls →
  _parse (join [13; 10] ls) k = _parse (join [10] ls) k.
Proof.
  intros Hls. unfold _parse.
  by rewrite splitlines_join_crlf, splitlines_join.
Qed.

End ParserExtras.

(** ** More on the flow *)

Section FlowExtras.
Context {W : Type} (tg : TextGenerator W) `{UnicodeDB}.

(** A parsed menu is no longer than a positive limit. *)
Lemma parse_length text (k : Z) :
  (0 < k)%Z → (length (_parse text k) ≤ Z.to_nat k)%nat.
Proof. intros Hk. rewrite parse_keep_first by exact Hk. rewrite length_take. lia. Qed.

(** The numbered lines of a menu, by position. *)
Lemma menu_lines_imap qs : ∀ j : Z,
  menu_lines j qs
  = imap (λ i q, PyStr.str_of_int (Z.of_nat i + j) ++ lit ". " ++ q) qs.
Proof.
  induction qs as [|q qs IH]; intros j; [done |].
  cbn [menu_lines imap]. f_equal. rewrite IH. apply imap_ext.
  intros i x _. unfold compose.
  by replace (Z.of_nat (S i) + j)%Z with (Z.of_nat i + (j + 1))%Z by lia.
Qed.

(** X6: What a successful [ask] did: the model gave the main answer, then
    a proposal for the context "User question: ..., Answer: ..." built of
    the question and that answer, then one follow-up answer per entry of
    the parsed menu, in menu order, each asked with the question itself as
    base question.  The reply is the model's main answer followed by the
    numbered menu under the title "Follow-ups:" (nothing for an empty
    menu); the cache holds the model's follow-up answers at keys
    1..[len(menu)]. *)
Theorem ask_protocol (m : Machine W) question visible new_menu m' :
  ask tg question m = (inr (visible, new_menu), m') →
  ∃ main_answer w0 raw w1 replies,
    let ctx : pystr :=
      lit "User question: " ++ question ++ [10] ++ lit "Answer: " ++ main_answer in
    gen_answer tg question (world m) = (Some main_answer, w0) ∧
    gen_followups tg ctx w0 = (Some raw, w1) ∧
    new_menu = _parse (default [] raw) (k_followups (flow m)) ∧
    followup_replies tg question new_menu w1 = (replies, false, world m') ∧
    length replies = length new_menu ∧
    visible
    = main_answer
      ++ match new_menu with
         | [] => []
         | _ => [10; 10] ++ lit "Follow-ups:" ++ [10]
                ++ PyStr.join [10]
                     (imap (λ i q, PyStr.str_of_int (Z.of_nat i + 1)
                                   ++ lit ". " ++ q) new_menu)
         end ∧
    base (flow m') = Some question ∧
    menu (flow m') = new_menu ∧
    k_followups (flow m') = k_followups (flow m) ∧
    (∀ i : Z,
       answers (flow m') !! i
       = if ((1 <=? i) && (i <=? Z.of_nat (length new_menu)))%Z
         then replies !! Z.to_nat (i - 1) else None) ∧
    calls m' = calls m ++ CallMain question :: CallPropose ctx
                 :: map (CallFollowup question) new_menu.
Proof.
  rewrite ask_unfold. unfold ask_context.
  destruct (gen_answer tg question (world m)) as [[main_answer|] w0]; [| discriminate].
  cbv zeta.
  destruct (gen_followups tg _ w0) as [[raw|] w1] eqn:Hprop; [| discriminate].
  destruct (followup_replies tg question
              (_parse (default [] raw) (k_followups (flow m))) w1)
    as [[rs failed] w2] eqn:Hrs.
  destruct (layer_replies tg
              (Build_Machine (flow m) w0 (calls m ++ [CallMain question]))
              question (_parse (default [] raw) (k_followups (flow m))) w1
              (CallPropose (lit "User question: " ++ question ++ [10]
                            ++ lit "Answer: " ++ main_answer)) rs failed w2 Hrs)
    as (m2 & Hrun & Hk & Hb & Hm & Hans & Hw & Hc & Hlen).
  cbn [flow calls] in Hk, Hc. rewrite Hrun.
  destruct failed; [discriminate |].
  intros [= <- <- <-]. rewrite Hm.
  exists main_answer, w0, raw, w1, rs. cbv zeta.
  split; [done |]. split; [exact Hprop |]. split; [done |].
  split; [by rewrite Hw |]. split; [exact Hlen |].
  split.
  { f_equal. unfold menu_text_of.
    destruct (_parse (default [] raw) (k_followups (flow m))) as [|q qs]; [done |].
    rewrite menu_lines_imap. reflexivity. }
  split; [done |]. split; [done |]. split; [done |].
  split; [by rewrite <- Hlen |].
  rewrite Hc, <- app_assoc, Hlen, firstn_all. done.
Qed.

(** X7: The calls of one operation, whatever its outcome: [ask] adds at most
    [2 + k] calls to the model and [rotate_next_layer] at most [1 + k],
    and neither forgets a call made before. *)
Theorem model_call_budget (m : Machine W) :
  (0 < k_followups (flow m))%Z →
  (∀ question,
     calls m `prefix_of` calls (snd (ask tg question m)) ∧
     (length (calls (snd (ask tg question m)))
      ≤ length (calls m) + 2 + Z.to_nat (k_followups (flow m)))%nat) ∧
  (∀ idx,
     calls m `prefix_of` calls (snd (rotate_next_layer tg idx m)) ∧
     (length (calls (snd (rotate_next_layer tg idx m)))
      ≤ length (calls m) + 1 + Z.to_nat (k_followups (flow m)))%nat).
Proof.
  intros Hk. split.
  - intros question. rewrite ask_unfold.
    destruct (gen_answer tg question (world m)) as [[main_answer|] w0].
    2:{ cbn [calls flow snd]. split; [by apply prefix_app_r | rewrite length_app; simpl; lia]. }
    cbv zeta.
    destruct (gen_followups tg _ w0) as [[raw|] w1].
    2:{ cbn [calls flow snd]. rewrite <- app_assoc.
        split; [by apply prefix_app_r | rewrite length_app; simpl; lia]. }
    pose proof (parse_length (default [] raw) _ Hk) as Hlen.
    destruct (fill_answers tg question 1 _ _) as [[e|u] m2] eqn:Hfill.
    + apply layer_failed in Hfill as (_ & _ & _ & j & Hj & _ & Hc).
      cbn [calls flow snd] in Hc |- *. rewrite Hc, <- app_assoc.
      split; [by apply prefix_app_r |].
      rewrite !length_app. cbn [length]. rewrite List.length_map, length_take. lia.
    + apply layer_filled in Hfill as (_ & _ & _ & _ & Hc).
      cbn [calls flow snd] in Hc |- *. rewrite Hc, <- app_assoc.
      split; [by apply prefix_app_r |].
      rewrite !length_app. cbn [length]. rewrite List.length_map. lia.
  - intros idx.
    destruct (py_index (menu (flow m)) (idx - 1)) as [sel|] eqn:Hsel.
    2:{ rewrite rotate_index_error by exact Hsel. cbn [snd]. split; [done | lia]. }
    rewrite (rotate_unfold tg idx m sel Hsel). cbv zeta.
    destruct (gen_followups tg _ (world m)) as [[raw|] w1].
    2:{ cbn [calls flow snd]. split; [by apply prefix_app_r | rewrite length_app; simpl; lia]. }
    pose proof (parse_length (default [] raw) _ Hk) as Hlen.
    destruct (fill_answers tg sel 1 _ _) as [[e|u] m2] eqn:Hfill.
    + apply layer_failed in Hfill as (_ & _ & _ & j & Hj & _ & Hc).
      cbn [calls flow snd] in Hc |- *. rewrite Hc.
      split; [by apply prefix_app_r |].
      rewrite !length_app. cbn [length]. rewrite List.length_map, length_take. lia.
    + apply layer_filled in Hfill as (_ & _ & _ & _ & Hc).
      cbn [calls flow snd] in Hc |- *. rewrite Hc.
      split; [by apply prefix_app_r |].
      rewrite !length_app. cbn [length]. rewrite List.length_map. lia.
Qed.

(** X8: On an object that was just created no selection exists: every
    [peek_immediate] gives the message with bound 0, every
    [rotate_next_layer] raises IndexError, and neither calls the model or
    changes the object. *)
Theorem fresh_flow_has_no_selection (k idx : Z) (w : W) (log : list call) :
  let m := Build_Machine (new_flow k) w log in
  peek_immediate idx m
    = (inr (lit "Please choose a number between 1 and 0."), m) ∧
  rotate_next_layer tg idx m = (inl IndexError, m).
Proof.
  intros m. destruct (empty_menu_selections tg m eq_refl) as [Hpeek Hrot].
  split; [exact (Hpeek idx) | exact (Hrot idx)].
Qed.

(** The keys of the cache on a layered machine. *)
Lemma layered_dom (m : Machine W) :
  layered tg m →
  dom (answers (flow m))
  = list_to_set (seqZ 1 (Z.of_nat (length (menu (flow m))))).
Proof.
  induction 1 as [m question r m' Hask | m idx r m' _ _ Hrot | m idx r m' _ IH Hpeek].
  - rewrite ask_unfold in Hask.
    destruct (gen_answer tg question (world m)) as [[main_answer|] w0];
      [| discriminate].
    cbv zeta in Hask.
    destruct (gen_followups tg _ w0) as [[raw|] w1]; [| discriminate].
    destruct (fill_answers tg question 1 _ _) as [[e2|u] m2] eqn:Hfill;
      [discriminate |].
    injection Hask as _ <-.
    apply layer_filled in Hfill as (_ & _ & Hm & Hdom & _). by rewrite Hm.
  - destruct (py_index (menu (flow m)) (idx - 1)) as [sel|] eqn:Hsel.
    2:{ rewrite rotate_index_error in Hrot by exact Hsel. discriminate. }
    rewrite (rotate_unfold tg idx m sel Hsel) in Hrot. cbv zeta in Hrot.
    destruct (gen_followups tg _ (world m)) as [[raw|] w1]; [| discriminate].
    destruct (fill_answers tg sel 1 _ _) as [[e2|u] m2] eqn:Hfill;
      [discriminate |].
    injection Hrot as _ <-.
    apply layer_filled in Hfill as (_ & _ & Hm & Hdom & _). by rewrite Hm.
  - rewrite peek_unfold in Hpeek. by injection Hpeek as _ <-.
Qed.

(** X9: After a successful [ask] and successful rotations, every index of the
    menu has its answer ready: [peek_immediate] returns the answer the
    cache stores at that index (it takes neither its out-of-range branch
    nor the default of [answers.get]). *)
Theorem layered_selection_is_cached (m : Machine W) (idx : Z) :
  layered tg m →
  (1 ≤ idx ≤ Z.of_nat (length (menu (flow m))))%Z →
  ∃ a, answers (flow m) !! idx = Some a ∧ peek_immediate idx m = (inr a, m).
Proof.
  intros Hl Hidx. rewrite peek_unfold. unfold peek_result.
  assert (Hi : idx ∈ dom (answers (flow m))).
  { rewrite (layered_dom m Hl), elem_of_list_to_set, elem_of_seqZ. lia. }
  apply elem_of_dom in Hi as [a Ha]. exists a. rewrite Ha.
  destruct (Z.leb_spec 1 idx), (Z.leb_spec idx (Z.of_nat (length (menu (flow m)))));
    try lia.
  done.
Qed.

End FlowExtras.

(** ** The handlers *)

Section HandlerFacts.
Context {W : Type} (tg : TextGenerator W) `{UnicodeDB} `{DigitDB}.
Import PyStr PyStrFacts.

Lemma uint_codes_isdigit d :
  forallb (λ c, if is_ascii c then is_ascii_digit c else uni_isdigit c)
          (uint_codes d) = true.
Proof. induction d; simpl; done. Qed.

Lemma uint_codes_round_trip d : uint_of_codes (uint_codes d) = Some d.
Proof. induction d; simpl; [done | by rewrite IHd ..]. Qed.

Lemma no_space_strip s :
  Forall (λ c, is_space c = false) s → strip s = s.
Proof.
  intros Hs. unfold strip.
  assert (Hr : rstrip s = s).
  { induction Hs as [|c s Hc _ IH]; simpl; [done |].
    rewrite IH. destruct s; [by rewrite Hc | done]. }
  rewrite Hr. destruct Hs as [|c s Hc _]; simpl; [done | by rewrite Hc].
Qed.

Lemma uint_codes_no_space d : Forall (λ c, is_space c = false) (uint_codes d).
Proof. induction d; simpl; constructor; done. Qed.

(** The decimal text of a number that is not negative, read back. *)
Lemma str_of_int_read_back (n : Z) :
  (0 ≤ n)%Z → (length (str_of_int n) ≤ 640)%nat →
  strip (str_of_int n) = str_of_int n ∧
  isdigit (str_of_int n) = true ∧
  py_int (str_of_int n) = Some n.
Proof.
  intros Hn Hlen. destruct n as [|p|p]; [by vm_compute | | lia].
  cbn [str_of_int] in *.
  pose proof (Unsigned.to_uint_nonnil p) as Hnil.
  split_and!.
  - apply no_space_strip, uint_codes_no_space.
  - unfold isdigit. rewrite uint_codes_isdigit.
    destruct (uint_codes (Pos.to_uint p)) eqn:E; [| done].
    by apply uint_codes_nil in E.
  - unfold py_int. rewrite uint_codes_round_trip.
    destruct (Nat.leb_spec (length (uint_codes (Pos.to_uint p))) 640); [| lia].
    destruct (uint_codes (Pos.to_uint p)) eqn:E.
    { by apply uint_codes_nil in E. }
    f_equal. change (Pos.to_uint p) with (N.to_uint (Npos p)).
    by rewrite DecimalN.Unsigned.of_to.
Qed.

Lemma buttons_update_cases (menu : list pystr) :
  _buttons_update menu
  = List.map (λ q, Update q true) (take MAX_BTNS menu)
    ++ replicate (MAX_BTNS - length menu) (Update [] false).
Proof. by destruct menu as [|a [|b [|c [|d menu]]]]. Qed.

Lemma buttons_update_visible (menu : list pystr) :
  visible_labels (_buttons_update menu) = take MAX_BTNS menu.
Proof. by destruct menu as [|a [|b [|c [|d menu]]]]. Qed.

(** X10: [_buttons_update] always gives one update per button, four of them;
    the buttons it shows carry the first four menu entries in order, and
    the others are hidden with an empty label. *)
Theorem buttons_update_shows_menu (menu : list pystr) :
  length (_buttons_update menu) = MAX_BTNS ∧
  visible_labels (_buttons_update menu) = take MAX_BTNS menu ∧
  _buttons_update menu
  = List.map (λ q, Update q true) (take MAX_BTNS menu)
    ++ replicate (MAX_BTNS - length menu) (Update [] false).
Proof.
  split_and!.
  - unfold _buttons_update. by rewrite List.length_map, length_seq.
  - apply buttons_update_visible.
  - apply buttons_update_cases.
Qed.

(** Blank text is stripped to nothing. *)
Lemma strip_spaces s : Forall (λ c, is_space c = true) s → strip s = [].
Proof.
  intros Hs. unfold strip.
  by replace (rstrip s) with (@nil N) by (symmetry; by apply rstrip_nil_spaces).
Qed.

Lemma lstrip_app_spaces pre s :
  Forall (λ c, is_space c = true) pre → lstrip (pre ++ s) = lstrip s.
Proof. induction 1 as [|c pre Hc _ IH]; simpl; [done | by rewrite Hc]. Qed.

Lemma rstrip_app_spaces s post :
  Forall (λ c, is_space c = true) post → rstrip (s ++ post) = rstrip s.
Proof.
  intros Hpost. induction s as [|c s IH]; simpl; [| by rewrite IH].
  by apply rstrip_nil_spaces.
Qed.

Lemma rstrip_no_space t : Forall (λ c, is_space c = false) t → rstrip t = t.
Proof.
  induction 1 as [|c t Hc _ IH]; simpl; [done |].
  rewrite IH. destruct t; [by rewrite Hc | done].
Qed.

Lemma rstrip_app_no_space s t :
  t ≠ [] → Forall (λ c, is_space c = false) t → rstrip (s ++ t) = s ++ t.
Proof.
  intros Hne Ht. induction s as [|c s IH]; simpl; [by apply rstrip_no_space |].
  rewrite IH. destruct (s ++ t) eqn:E; [| done].
  by apply app_eq_nil in E as [_ ->].
Qed.

(** Text without spaces of its own, between spaces: [strip] gives it back. *)
Lemma strip_padded pre t post :
  Forall (λ c, is_space c = true) pre → Forall (λ c, is_space c = true) post →
  t ≠ [] → Forall (λ c, is_space c = false) t →
  strip (pre ++ t ++ post) = t.
Proof.
  intros Hpre Hpost Hne Ht. unfold strip.
  rewrite app_assoc, rstrip_app_spaces by exact Hpost.
  rewrite rstrip_app_no_space by done.
  rewrite lstrip_app_spaces by exact Hpre.
  apply lstrip_clean. destruct Ht; [done | assumption].
Qed.

Lemma ascii_digit_cases (c : N) :
  48 ≤ c ≤ 57 →
  is_space c = false ∧ is_ascii c = true ∧ is_ascii_digit c = true.
Proof.
  intros Hc.
  assert (c = 48 ∨ c = 49 ∨ c = 50 ∨ c = 51 ∨ c = 52 ∨ c = 53 ∨ c = 54
          ∨ c = 55 ∨ c = 56 ∨ c = 57) as Hcases by lia.
  destruct_or!; subst c; done.
Qed.

Lemma ascii_digits_isdigit ds :
  ds ≠ [] → Forall (λ c, 48 ≤ c ≤ 57) ds → isdigit ds = true.
Proof.
  intros Hne Hds. unfold isdigit. destruct ds as [|d ds]; [done |].
  apply forallb_forall. intros c Hc.
  apply (proj1 (List.Forall_forall _ _) Hds) in Hc.
  by destruct (ascii_digit_cases c Hc) as (_ & -> & ->).
Qed.

(** X11: Two inputs that [submit_or_choose] answers by itself, in one
    frame, without touching the flow or calling the model.  Blank input
    (no text, or white space only) leaves the transcript and the buttons
    as they are.  A number typed while there is no menu (ASCII digits,
    however many, with any white space around them) adds an entry made of
    the digits and the message "No follow-ups available. Ask a new
    question." and leaves the buttons as they are; [int] is not tried on
    it. *)
Theorem submit_without_flow chat_history (m : Machine W) :
  submit_or_choose tg None chat_history m
  = Build_played [(chat_history, [NoChange; NoChange; NoChange; NoChange])] None m ∧
  (∀ blank,
     Forall (λ c, is_space c = true) blank →
     submit_or_choose tg (Some blank) chat_history m
     = Build_played [(chat_history, [NoChange; NoChange; NoChange; NoChange])]
         None m) ∧
  (∀ pre digits post,
     Forall (λ c, is_space c = true) pre →
     Forall (λ c, is_space c = true) post →
     digits ≠ [] → Forall (λ c, 48 ≤ c ≤ 57) digits →
     menu (flow m) = [] →
     submit_or_choose tg (Some (pre ++ digits ++ post)) chat_history m
     = Build_played
         [(chat_history
           ++ [(digits, lit "No follow-ups available. Ask a new question.")],
           [NoChange; NoChange; NoChange; NoChange])]
         None m).
Proof.
  split_and!.
  - reflexivity.
  - intros blank Hblank. unfold submit_or_choose. cbn [default].
    change (id blank) with blank. by rewrite strip_spaces.
  - intros pre digits post Hpre Hpost Hne Hdigits Hmenu.
    unfold submit_or_choose. cbn [default].
    change (id (pre ++ digits ++ post)) with (pre ++ digits ++ post).
    rewrite strip_padded; [| done | done | done |].
    + by rewrite ascii_digits_isdigit, Hmenu.
    + eapply Forall_impl; [exact Hdigits |].
      intros c Hc. by destruct (ascii_digit_cases c Hc) as (-> & _).
Qed.

(** The numeric branch of [submit_or_choose] on a menu that is not empty. *)
Lemma submit_number_unfold (user_text : option pystr) chat_history
    (m : Machine W) (idx : Z) :
  let text := strip (default [] user_text) in
  isdigit text = true → menu (flow m) ≠ [] → py_int text = Some idx →
  let shown := chat_history ++ [(text, peek_result (flow m) idx)] in
  submit_or_choose tg user_text chat_history m
  = match rotate_next_layer tg idx m with
    | (inl e, m2) => Build_played [(shown, no_updates)] (Some (FlowError e)) m2
    | (inr next_menu, m2) =>
        Build_played [(shown, no_updates); (shown, _buttons_update next_menu)] None m2
    end.
Proof.
  intros text Hdigit Hmenu Hint shown. unfold submit_or_choose. fold text.
  rewrite Hdigit, Hint, peek_unfold.
  by destruct (menu (flow m)).
Qed.

Lemma choose_btn_unfold (idx : Z) chat_history (m : Machine W) :
  let shown := chat_history ++ [(str_of_int idx, peek_result (flow m) idx)] in
  choose_btn tg idx chat_history m
  = match rotate_next_layer tg idx m with
    | (inl e, m2) => Build_played [(shown, no_updates)] (Some (FlowError e)) m2
    | (inr next_menu, m2) =>
        Build_played [(shown, no_updates); (shown, _buttons_update next_menu)] None m2
    end.
Proof. intros shown. unfold choose_btn. by rewrite peek_unfold. Qed.

Lemma peek_result_out_of_range (f : Flow) (idx : Z) :
  ¬ (1 ≤ idx ≤ Z.of_nat (length (menu f)))%Z →
  peek_result f idx = out_of_range (length (menu f)).
Proof.
  intros Hout. unfold peek_result.
  by destruct (Z.leb_spec 1 idx), (Z.leb_spec idx (Z.of_nat (length (menu f))));
    try lia.
Qed.

Lemma peek_result_in_range (f : Flow) (idx : Z) :
  (1 ≤ idx ≤ Z.of_nat (length (menu f)))%Z →
  peek_result f idx = default no_cached_answer (answers f !! idx).
Proof.
  intros Hin. unfold peek_result.
  by destruct (Z.leb_spec 1 idx), (Z.leb_spec idx (Z.of_nat (length (menu f))));
    try lia.
Qed.

(** The base after a rotation whose lookup succeeded, whatever came next. *)
Lemma rotate_base (idx : Z) (m : Machine W) sel :
  py_index (menu (flow m)) (idx - 1) = Some sel →
  base (flow (snd (rotate_next_layer tg idx m))) = Some sel ∧
  fst (rotate_next_layer tg idx m) ≠ inl IndexError.
Proof.
  intros Hsel. rewrite (rotate_unfold tg idx m sel Hsel). cbv zeta.
  destruct (gen_followups tg _ (world m)) as [[raw|] w1]; [| done].
  destruct (fill_answers tg sel 1 _ _) as [[e|u] m2] eqn:Hfill.
  - pose proof (fill_answers_raises _ _ _ _ _ _ _ Hfill) as ->.
    by apply layer_failed in Hfill as (_ & Hb & _).
  - by apply layer_filled in Hfill as (_ & Hb & _).
Qed.

(** X12: Typing 0 while a menu is shown: the first frame says that the number
    is out of range, and then the flow is rotated all the same, onto the
    last entry of the menu ([menu[0 - 1]]); IndexError is not raised. *)
Theorem submit_zero_rotates_to_last chat_history (m : Machine W) :
  menu (flow m) ≠ [] →
  let r := submit_or_choose tg (Some (lit "0")) chat_history m in
  head (frames r)
    = Some (chat_history ++ [(lit "0", out_of_range (length (menu (flow m))))],
            no_updates) ∧
  raised r ≠ Some (FlowError IndexError) ∧
  is_Some (last (menu (flow m))) ∧
  base (flow (after r)) = last (menu (flow m)).
Proof.
  intros Hmenu r. subst r.
  rewrite (submit_number_unfold (Some (lit "0")) chat_history m 0)
    by (done || by vm_compute).
  change (strip (default [] (Some (lit "0")))) with (lit "0").
  rewrite peek_result_out_of_range by lia.
  pose proof (py_index_minus_one (menu (flow m))) as Hlast.
  assert (Hsome : is_Some (last (menu (flow m)))).
  { rewrite last_lookup. apply lookup_lt_is_Some.
    destruct (menu (flow m)); [done | simpl; lia]. }
  destruct Hsome as [sel Hsel]. rewrite Hsel in Hlast |- *.
  destruct (rotate_base 0 m sel Hlast) as [Hbase Hne].
  destruct (rotate_next_layer tg 0 m) as [[e|next_menu] m2]; cbn in *.
  - split_and!; [done | congruence | by eexists | done].
  - split_and!; [done | done | by eexists | done].
Qed.

(** X13: Typing a number above the length of the menu: the message that the
    number is out of range is yielded, then the handler ends with
    IndexError; the flow is not touched and the model is not called. *)
Theorem submit_above_range_raises (user_text : option pystr) chat_history
    (m : Machine W) (idx : Z) :
  let text := strip (default [] user_text) in
  isdigit text = true → menu (flow m) ≠ [] → py_int text = Some idx →
  (Z.of_nat (length (menu (flow m))) < idx)%Z →
  submit_or_choose tg user_text chat_history m
  = Build_played
      [(chat_history ++ [(text, out_of_range (length (menu (flow m))))], no_updates)]
      (Some (FlowError IndexError)) m.
Proof.
  intros text Hdigit Hmenu Hint Hidx.
  rewrite (submit_number_unfold user_text chat_history m idx) by done.
  fold text. rewrite peek_result_out_of_range by lia.
  rewrite rotate_index_error; [done |].
  apply py_index_None. lia.
Qed.

(** X14: Typing the number of a menu entry: the cached answer (what
    [answers.get] finds at that number) is yielded first, with the buttons
    left alone; the rotation comes after.  When it succeeds a second frame
    with the same transcript puts the new menu on the buttons; when it
    fails the handler ends with its exception after that first frame. *)
Theorem submit_selection_two_frames (user_text : option pystr) chat_history
    (m : Machine W) (idx : Z) :
  let text := strip (default [] user_text) in
  isdigit text = true → py_int text = Some idx →
  (1 ≤ idx ≤ Z.of_nat (length (menu (flow m))))%Z →
  let shown :=
    chat_history ++ [(text, default no_cached_answer (answers (flow m) !! idx))] in
  let r := submit_or_choose tg user_text chat_history m in
  after r = snd (rotate_next_layer tg idx m) ∧
  match fst (rotate_next_layer tg idx m) with
  | inr next_menu =>
      frames r = [(shown, no_updates); (shown, _buttons_update next_menu)] ∧
      raised r = None
  | inl e =>
      frames r = [(shown, no_updates)] ∧ raised r = Some (FlowError e)
  end.
Proof.
  intros text Hdigit Hint Hidx shown r. subst r shown.
  assert (Hmenu : menu (flow m) ≠ []).
  { destruct (menu (flow m)); [simpl in Hidx; lia | done]. }
  rewrite (submit_number_unfold user_text chat_history m idx) by done.
  fold text. rewrite peek_result_in_range by done.
  by destruct (rotate_next_layer tg idx m) as [[e|next_menu] m2].
Qed.

(** X15: A question typed while the limit of the flow is between 1 and the
    number of buttons, as it is for the global flow: when [ask] succeeds
    there is one frame, the reply is added to the transcript, and the
    buttons shown are the whole new menu, entry by entry. *)
Theorem submit_question_shows_whole_menu (user_text : option pystr) chat_history
    (m : Machine W) visible new_menu m' :
  let text := strip (default [] user_text) in
  isdigit text = false → text ≠ [] →
  (0 < k_followups (flow m) ≤ Z.of_nat MAX_BTNS)%Z →
  ask tg text m = (inr (visible, new_menu), m') →
  submit_or_choose tg user_text chat_history m
  = Build_played
      [(chat_history ++ [(text, visible)], _buttons_update new_menu)] None m' ∧
  visible_labels (_buttons_update new_menu) = new_menu ∧
  menu (flow m') = new_menu.
Proof.
  intros text Hdigit Hne Hk Hask.
  assert (Hrun : submit_or_choose tg user_text chat_history m
    = Build_played
        [(chat_history ++ [(text, visible)], _buttons_update new_menu)] None m').
  { unfold submit_or_choose. fold text. rewrite Hdigit, Hask. by destruct text. }
  split; [exact Hrun |].
  rewrite ask_unfold in Hask.
  destruct (gen_answer tg text (world m)) as [[main_answer|] w0]; [| discriminate].
  cbv zeta in Hask.
  destruct (gen_followups tg _ w0) as [[raw|] w1]; [| discriminate].
  destruct (fill_answers tg text 1 _ _) as [[e|u] m2] eqn:Hfill; [discriminate |].
  injection Hask as _ <- <-.
  apply layer_filled in Hfill as (_ & _ & Hm & _).
  split; [| done].
  pose proof (parse_length (default [] raw) (k_followups (flow m)) (proj1 Hk)) as Hlen.
  rewrite Hm.
  rewrite buttons_update_visible.
  apply take_ge. unfold MAX_BTNS in *. lia.
Qed.

(** X16: Clicking the button of a number is what typing that number does, as
    long as a menu is there (and the number is not negative and has at
    most 640 digits). *)
Theorem choose_btn_is_typed_number (idx : Z) chat_history (m : Machine W) :
  menu (flow m) ≠ [] → (0 ≤ idx)%Z → (length (str_of_int idx) ≤ 640)%nat →
  choose_btn tg idx chat_history m
  = submit_or_choose tg (Some (str_of_int idx)) chat_history m.
Proof.
  intros Hmenu Hidx Hlen.
  destruct (str_of_int_read_back idx Hidx Hlen) as (Hstrip & Hdigit & Hint).
  rewrite choose_btn_unfold.
  rewrite (submit_number_unfold (Some (str_of_int idx)) chat_history m idx);
    cbn [default from_option id]; rewrite ?Hstrip; done.
Qed.

(** X17: [choose_btn] has no guard for an empty menu: the first frame carries
    the message with bound 0 and then the handler ends with IndexError;
    the flow is not touched and the model is not called. *)
Theorem choose_btn_without_menu (idx : Z) chat_history (m : Machine W) :
  menu (flow m) = [] →
  choose_btn tg idx chat_history m
  = Build_played
      [(chat_history ++ [(str_of_int idx, out_of_range 0)], no_updates)]
      (Some (FlowError IndexError)) m.
Proof.
  intros Hmenu. rewrite choose_btn_unfold.
  rewrite peek_result_out_of_range by (rewrite Hmenu; simpl; lia).
  rewrite rotate_index_error by (apply py_index_None; rewrite Hmenu; simpl; lia).
  by rewrite Hmenu.
Qed.

Lemma frame_unchanged chat_history :
  well_formed_frame chat_history (chat_history, no_updates).
Proof. split; [done |]. exists []. split; [by rewrite app_nil_r | simpl; lia]. Qed.

Lemma frame_added chat_history entry us :
  length us = MAX_BTNS →
  well_formed_frame chat_history (chat_history ++ [entry], us).
Proof. intros Hus. split; [done |]. exists [entry]. split; [done | simpl; lia]. Qed.

Lemma buttons_update_length (menu : list pystr) :
  length (_buttons_update menu) = MAX_BTNS.
Proof. unfold _buttons_update. by rewrite List.length_map, length_seq. Qed.

(** X18: Whatever the input and the state, a handler yields at most two
    frames, each with exactly four button updates and with the transcript
    it was given plus at most one new entry: the transcript is never cut
    or rewritten, and the five outputs are always all there. *)
Theorem handler_frames_shape (user_text : option pystr) (idx : Z) chat_history
    (m : Machine W) :
  ((length (frames (submit_or_choose tg user_text chat_history m)) ≤ 2)%nat ∧
   Forall (well_formed_frame chat_history)
          (frames (submit_or_choose tg user_text chat_history m))) ∧
  ((length (frames (choose_btn tg idx chat_history m)) ≤ 2)%nat ∧
   Forall (well_formed_frame chat_history)
          (frames (choose_btn tg idx chat_history m))).
Proof.
  split.
  - unfold submit_or_choose.
    set (text := strip (default [] user_text)).
    destruct (isdigit text).
    + destruct (menu (flow m)) as [|q qs].
      { cbn [frames length]. split; [lia |]. repeat constructor.
        by apply frame_added. }
      destruct (py_int text) as [i|]; [| cbn [frames length]; split; [lia | constructor]].
      rewrite peek_unfold.
      destruct (rotate_next_layer tg i m) as [[e|next_menu] m2]; cbn [frames length];
        (split; [lia |]); repeat constructor;
        apply frame_added; (done || apply buttons_update_length).
    + destruct text as [|c text'].
      { cbn [frames length]. split; [lia |]. repeat constructor.
        apply frame_unchanged. }
      destruct (ask tg (c :: text') m) as [[e|[visible new_menu]] m1];
        cbn [frames length]; (split; [lia |]); repeat constructor.
      apply frame_added, buttons_update_length.
  - unfold choose_btn. rewrite peek_unfold.
    destruct (rotate_next_layer tg idx m) as [[e|next_menu] m2]; cbn [frames length];
      (split; [lia |]); repeat constructor;
      apply frame_added; (done || apply buttons_update_length).
Qed.

End HandlerFacts.

(** ** The handlers and the parser, run *)

Section MoreScenarios.
#[local] Existing Instance ascii_tables.
#[local] Existing Instance ascii_digits.

(** Limit 0 on a text of two lines: the first line alone. *)
Lemma parse_nonpositive_limit_witness :
  (0 ≤ 0)%Z ∧
  _parse (lit "a" ++ [10] ++ lit "b") 0
  = take 1 (omap line_item (PyStr.splitlines (lit "a" ++ [10] ++ lit "b"))).
Proof.
  assert (Hk : (0 ≤ 0)%Z) by reflexivity.
  split; [exact Hk |].
  exact (parse_nonpositive_limit (lit "a" ++ [10] ++ lit "b") 0 Hk).
Defined.

Lemma parse_limit_prefix_witness :
  (0 < 1 ≤ 4)%Z ∧ _parse tcp_proposal 1 `prefix_of` _parse tcp_proposal 4.
Proof.
  assert (Hk : (0 < 1 ≤ 4)%Z) by (split; [reflexivity | discriminate]).
  split; [exact Hk |]. exact (parse_limit_prefix tcp_proposal 1 4 Hk).
Defined.

Lemma parse_crlf_witness :
  let ls := [lit "1. A?"; lit "2. B?"] in
  Forall (λ l, PyStr.one_line l ∧ l ≠ []) ls ∧
  _parse (PyStr.join [13; 10] ls) 4 = _parse (PyStr.join [10] ls) 4.
Proof.
  cbv zeta.
  assert (Hls : Forall (λ l, PyStr.one_line l ∧ l ≠ []) [lit "1. A?"; lit "2. B?"]).
  { repeat constructor; try discriminate; unfold PyStr.one_line;
      repeat constructor. }
  split; [exact Hls |]. exact (parse_crlf _ 4 Hls).
Defined.

(** The reply of the first scenario. *)
Lemma ask_protocol_witness :
  ask scripted tcp_question (boot 4 tcp_script)
    = (inr (tcp_reply, [udp_question; handshake_question]), tcp_asked) ∧
  ∃ main_answer w0 raw w1 replies,
    let ctx : pystr :=
      lit "User question: " ++ tcp_question ++ [10] ++ lit "Answer: " ++ main_answer in
    gen_answer scripted tcp_question (world (boot 4 tcp_script))
      = (Some main_answer, w0) ∧
    gen_followups scripted ctx w0 = (Some raw, w1) ∧
    [udp_question; handshake_question]
      = _parse (default [] raw) (k_followups (flow (boot 4 tcp_script))) ∧
    followup_replies scripted tcp_question [udp_question; handshake_question] w1
      = (replies, false, world tcp_asked) ∧
    length replies = length [udp_question; handshake_question] ∧
    tcp_reply
    = main_answer
      ++ ([10; 10] ++ lit "Follow-ups:" ++ [10]
          ++ PyStr.join [10]
               (imap (λ i q, PyStr.str_of_int (Z.of_nat i + 1) ++ lit ". " ++ q)
                  [udp_question; handshake_question])) ∧
    base (flow tcp_asked) = Some tcp_question ∧
    menu (flow tcp_asked) = [udp_question; handshake_question] ∧
    k_followups (flow tcp_asked) = k_followups (flow (boot 4 tcp_script)) ∧
    (∀ i : Z,
       answers (flow tcp_asked) !! i
       = if ((1 <=? i)
             && (i <=? Z.of_nat (length [udp_question; handshake_question])))%Z
         then replies !! Z.to_nat (i - 1) else None) ∧
    calls tcp_asked
    = calls (boot 4 tcp_script)
      ++ CallMain tcp_question :: CallPropose ctx
         :: map (CallFollowup tcp_question) [udp_question; handshake_question].
Proof.
  assert (Hask : ask scripted tcp_question (boot 4 tcp_script)
    = (inr (tcp_reply, [udp_question; handshake_question]), tcp_asked))
    by (vm_compute; reflexivity).
  split; [exact Hask |].
  exact (ask_protocol scripted (boot 4 tcp_script) tcp_question tcp_reply
           [udp_question; handshake_question] tcp_asked Hask).
Defined.

Lemma model_call_budget_witness :
  (0 < k_followups (flow tcp_asked))%Z ∧
  calls tcp_asked `prefix_of` calls (snd (rotate_next_layer scripted 2 tcp_asked)) ∧
  (length (calls (snd (rotate_next_layer scripted 2 tcp_asked)))
   ≤ length (calls tcp_asked) + 1 + Z.to_nat (k_followups (flow tcp_asked)))%nat.
Proof.
  assert (Hk : (0 < k_followups (flow tcp_asked))%Z) by (vm_compute; reflexivity).
  split; [exact Hk |].
  exact (proj2 (model_call_budget scripted tcp_asked Hk) 2%Z).
Defined.

Lemma layered_selection_is_cached_witness :
  layered scripted tcp_asked ∧
  (1 ≤ 2 ≤ Z.of_nat (length (menu (flow tcp_asked))))%Z ∧
  ∃ a, answers (flow tcp_asked) !! 2%Z = Some a ∧
       peek_immediate 2 tcp_asked = (inr a, tcp_asked).
Proof.
  assert (Hl : layered scripted tcp_asked).
  { eapply (layered_ask scripted (boot 4 tcp_script) tcp_question).
    vm_compute. reflexivity. }
  assert (H2 : (1 ≤ 2 ≤ Z.of_nat (length (menu (flow tcp_asked))))%Z)
    by (vm_compute; split; discriminate).
  split; [exact Hl |]. split; [exact H2 |].
  exact (layered_selection_is_cached scripted tcp_asked 2 Hl H2).
Defined.

(** X11 at three spaces typed on the first scenario, and at " 07" followed
    by a tab and a space typed before any question. *)
Lemma submit_without_flow_witness :
  let m := boot 4 tcp_script in
  (Forall (λ c, PyStr.is_space c = true) (lit "   ") ∧
   submit_or_choose scripted (Some (lit "   ")) [] tcp_asked
   = Build_played [([], [NoChange; NoChange; NoChange; NoChange])] None tcp_asked) ∧
  Forall (λ c, PyStr.is_space c = true) (lit " ") ∧
  Forall (λ c, PyStr.is_space c = true) [9; 32] ∧
  lit "07" ≠ [] ∧
  Forall (λ c, 48 ≤ c ≤ 57) (lit "07") ∧
  menu (flow m) = [] ∧
  submit_or_choose scripted (Some (lit " " ++ lit "07" ++ [9; 32])) [] m
  = Build_played
      [([] ++ [(lit "07", lit "No follow-ups available. Ask a new question.")],
        [NoChange; NoChange; NoChange; NoChange])]
      None m.
Proof.
  cbv zeta.
  assert (Hpre : Forall (λ c, PyStr.is_space c = true) (lit " "))
    by (repeat constructor).
  assert (Hpost : Forall (λ c, PyStr.is_space c = true) [9; 32])
    by (repeat constructor).
  assert (Hne : lit "07" ≠ []) by discriminate.
  assert (Hdigits : Forall (λ c, 48 ≤ c ≤ 57) (lit "07")).
  { change (lit "07") with [48; 55].
    constructor; [lia |]. constructor; [lia |]. constructor. }
  assert (Hm : menu (flow (boot 4 tcp_script)) = []) by reflexivity.
  assert (Hblank : Forall (λ c, PyStr.is_space c = true) (lit "   "))
    by (repeat constructor).
  split.
  { split; [exact Hblank |].
    exact (proj1 (proj2 (submit_without_flow scripted [] tcp_asked))
             (lit "   ") Hblank). }
  split; [exact Hpre |]. split; [exact Hpost |]. split; [exact Hne |].
  split; [exact Hdigits |]. split; [exact Hm |].
  exact (proj2 (proj2 (submit_without_flow scripted [] (boot 4 tcp_script)))
           (lit " ") (lit "07") [9; 32] Hpre Hpost Hne Hdigits Hm).
Defined.

Lemma submit_zero_rotates_to_last_witness :
  let r := submit_or_choose scripted (Some (lit "0")) [] tcp_asked in
  menu (flow tcp_asked) ≠ [] ∧
  head (frames r)
    = Some ([] ++ [(lit "0", out_of_range (length (menu (flow tcp_asked))))],
            no_updates) ∧
  raised r ≠ Some (FlowError IndexError) ∧
  is_Some (last (menu (flow tcp_asked))) ∧
  base (flow (after r)) = last (menu (flow tcp_asked)).
Proof.
  cbv zeta.
  assert (Hne : menu (flow tcp_asked) ≠ []) by (vm_compute; discriminate).
  split; [exact Hne |].
  exact (submit_zero_rotates_to_last scripted [] tcp_asked Hne).
Defined.

Lemma submit_above_range_raises_witness :
  let text := PyStr.strip (default [] (Some (lit "5"))) in
  isdigit text = true ∧ menu (flow tcp_asked) ≠ [] ∧ py_int text = Some 5%Z ∧
  (Z.of_nat (length (menu (flow tcp_asked))) < 5)%Z ∧
  submit_or_choose scripted (Some (lit "5")) [] tcp_asked
  = Build_played
      [([] ++ [(text, out_of_range (length (menu (flow tcp_asked))))], no_updates)]
      (Some (FlowError IndexError)) tcp_asked.
Proof.
  cbv zeta.
  assert (Hd : isdigit (PyStr.strip (default [] (Some (lit "5")))) = true)
    by reflexivity.
  assert (Hne : menu (flow tcp_asked) ≠ []) by (vm_compute; discriminate).
  assert (Hi : py_int (PyStr.strip (default [] (Some (lit "5")))) = Some 5%Z)
    by reflexivity.
  assert (H5 : (Z.of_nat (length (menu (flow tcp_asked))) < 5)%Z)
    by (vm_compute; reflexivity).
  split; [exact Hd |]. split; [exact Hne |]. split; [exact Hi |]. split; [exact H5 |].
  exact (submit_above_range_raises scripted (Some (lit "5")) [] tcp_asked 5 Hd Hne Hi H5).
Defined.

Lemma submit_selection_two_frames_witness :
  let text := PyStr.strip (default [] (Some (lit "2"))) in
  let shown :=
    [] ++ [(text, default no_cached_answer (answers (flow tcp_asked) !! 2%Z))] in
  let r := submit_or_choose scripted (Some (lit "2")) [] tcp_asked in
  isdigit text = true ∧ py_int text = Some 2%Z ∧
  (1 ≤ 2 ≤ Z.of_nat (length (menu (flow tcp_asked))))%Z ∧
  after r = snd (rotate_next_layer scripted 2 tcp_asked) ∧
  match fst (rotate_next_layer scripted 2 tcp_asked) with
  | inr next_menu =>
      frames r = [(shown, no_updates); (shown, _buttons_update next_menu)] ∧
      raised r = None
  | inl e =>
      frames r = [(shown, no_updates)] ∧ raised r = Some (FlowError e)
  end.
Proof.
  cbv zeta.
  assert (Hd : isdigit (PyStr.strip (default [] (Some (lit "2")))) = true)
    by reflexivity.
  assert (Hi : py_int (PyStr.strip (default [] (Some (lit "2")))) = Some 2%Z)
    by reflexivity.
  assert (H2 : (1 ≤ 2 ≤ Z.of_nat (length (menu (flow tcp_asked))))%Z)
    by (vm_compute; split; discriminate).
  split; [exact Hd |]. split; [exact Hi |]. split; [exact H2 |].
  exact (submit_selection_two_frames scripted (Some (lit "2")) [] tcp_asked 2 Hd Hi H2).
Defined.

Lemma submit_question_shows_whole_menu_witness :
  let text := PyStr.strip (default [] (Some tcp_question)) in
  let m := boot 4 tcp_script in
  isdigit text = false ∧ text ≠ [] ∧
  (0 < k_followups (flow m) ≤ Z.of_nat MAX_BTNS)%Z ∧
  ask scripted text m
    = (inr (tcp_reply, [udp_question; handshake_question]), tcp_asked) ∧
  submit_or_choose scripted (Some tcp_question) [] m
  = Build_played
      [([] ++ [(text, tcp_reply)], _buttons_update [udp_question; handshake_question])]
      None tcp_asked ∧
  visible_labels (_buttons_update [udp_question; handshake_question])
    = [udp_question; handshake_question] ∧
  menu (flow tcp_asked) = [udp_question; handshake_question].
Proof.
  cbv zeta.
  assert (Hd : isdigit (PyStr.strip (default [] (Some tcp_question))) = false)
    by reflexivity.
  assert (Hne : PyStr.strip (default [] (Some tcp_question)) ≠ [])
    by (vm_compute; discriminate).
  assert (Hk : (0 < k_followups (flow (boot 4 tcp_script)) ≤ Z.of_nat MAX_BTNS)%Z)
    by (vm_compute; split; [reflexivity | discriminate]).
  assert (Hask : ask scripted (PyStr.strip (default [] (Some tcp_question)))
                   (boot 4 tcp_script)
    = (inr (tcp_reply, [udp_question; handshake_question]), tcp_asked))
    by (vm_compute; reflexivity).
  split; [exact Hd |]. split; [exact Hne |]. split; [exact Hk |]. split; [exact Hask |].
  exact (submit_question_shows_whole_menu scripted (Some tcp_question) []
           (boot 4 tcp_script) tcp_reply [udp_question; handshake_question] tcp_asked
           Hd Hne Hk Hask).
Defined.

Lemma choose_btn_is_typed_number_witness :
  menu (flow tcp_asked) ≠ [] ∧ (0 ≤ 2)%Z ∧
  (length (PyStr.str_of_int 2) ≤ 640)%nat ∧
  choose_btn scripted 2 [] tcp_asked
  = submit_or_choose scripted (Some (PyStr.str_of_int 2)) [] tcp_asked.
Proof.
  assert (Hne : menu (flow tcp_asked) ≠ []) by (vm_compute; discriminate).
  assert (Hn : (0 ≤ 2)%Z) by discriminate.
  assert (Hlen : (length (PyStr.str_of_int 2) ≤ 640)%nat) by (vm_compute; lia).
  split; [exact Hne |]. split; [exact Hn |]. split; [exact Hlen |].
  exact (choose_btn_is_typed_number scripted 2 [] tcp_asked Hne Hn Hlen).
Defined.

Lemma choose_btn_without_menu_witness :
  let m := boot 4 tcp_script in
  menu (flow m) = [] ∧
  choose_btn scripted 1 [] m
  = Build_played
      [([] ++ [(PyStr.str_of_int 1, out_of_range 0)], no_updates)]
      (Some (FlowError IndexError)) m.
Proof.
  cbv zeta.
  assert (Hm : menu (flow (boot 4 tcp_script)) = []) by reflexivity.
  split; [exact Hm |].
  exact (choose_btn_without_menu scripted 1 [] (boot 4 tcp_script) Hm).
Defined.

End MoreScenarios.
